(** * Tetra Master: the arrow/cell interaction table generator

    A shallow embedding of [drivers/ai/generate-interactions.py]: the arrow
    bit patterns, the [NEIGHBOURS] adjacency table, the loop that folds an
    arrow byte into a 16-bit interaction mask, and the printing of the
    [INTERACTIONS] array literal.

    The other drivers follow: the benchmark-delta reporter
    [drivers/ai/improve-iai-output.py], the two probability-table printers
    [drivers/probability-scripts/generate-code.py] and
    [generate-win-probabilities.py], and the CSV loader of
    [drivers/probability-scripts/print-table.py]. *)

From Stdlib Require Import ZArith List Bool Lia Ascii String.
From Stdlib Require DecimalString HexadecimalString.
Import ListNotations.

Local Open Scope Z_scope.

(** ** Arrow bit patterns *)

Definition U  : Z := 128. (* 0b1000_0000 *)
Definition UR : Z := 64.  (* 0b0100_0000 *)
Definition R  : Z := 32.  (* 0b0010_0000 *)
Definition DR : Z := 16.  (* 0b0001_0000 *)
Definition D  : Z := 8.   (* 0b0000_1000 *)
Definition DL : Z := 4.   (* 0b0000_0100 *)
Definition L  : Z := 2.   (* 0b0000_0010 *)
Definition UL : Z := 1.   (* 0b0000_0001 *)

(** ** The adjacency table

    One row per cell, in cell order; each entry pairs a neighbouring cell
    with an arrow bit pattern. *)

Definition NEIGHBOURS : list (list (Z * Z)) :=
  [ [(0x1, R); (0x4, D); (0x5, DR)];
    [(0x0, L); (0x2, R); (0x4, DL); (0x5, D); (0x6, DR)];
    [(0x1, L); (0x3, R); (0x5, DL); (0x6, D); (0x7, DR)];
    [(0x2, L); (0x6, DL); (0x7, D)];
    [(0x0, U); (0x1, UR); (0x5, R); (0x8, D); (0x9, DR)];
    [(0x0, UL); (0x1, U); (0x2, UR); (0x4, L); (0x6, R); (0x8, DL); (0x9, D); (0xA, DR)];
    [(0x1, UL); (0x2, U); (0x3, UR); (0x5, L); (0x7, R); (0x9, DL); (0xA, D); (0xB, DR)];
    [(0x3, U); (0xB, D); (0xA, DL); (0x6, L); (0x2, UL)];
    [(0x4, U); (0x5, UR); (0x9, R); (0xD, DR); (0xC, D)];
    [(0x5, U); (0x6, UR); (0xA, R); (0xE, DR); (0xD, D); (0xC, DL); (0x8, L); (0x4, UL)];
    [(0x6, U); (0x7, UR); (0xB, R); (0xF, DR); (0xE, D); (0xD, DL); (0x9, L); (0x5, UL)];
    [(0x6, UL); (0x7, U); (0xA, L); (0xE, DL); (0xF, D)];
    [(0x8, U); (0x9, UR); (0xD, R)];
    [(0x8, UL); (0x9, U); (0xA, UR); (0xC, L); (0xE, R)];
    [(0x9, UL); (0xA, U); (0xB, UR); (0xD, L); (0xF, R)];
    [(0xA, UL); (0xB, U); (0xE, L)] ].

(** ** Python list indexing

    [l[i]]: a non-negative index counts from the front, a negative one from
    the back, and anything outside [-len, len) raises [IndexError] (here
    [None]). *)

Definition py_index {A : Type} (l : list A) (i : Z) : option A :=
  let len := Z.of_nat (List.length l) in
  if 0 <=? i then nth_error l (Z.to_nat i)
  else if - len <=? i then nth_error l (Z.to_nat (len + i))
  else None.

(** [range(lo, hi)] for [lo <= hi], as the list of its values. *)

Definition range (lo hi : Z) : list Z :=
  map (fun k => lo + Z.of_nat k) (seq 0 (Z.to_nat (hi - lo))).

(** ** The interaction loop

    The body of [for cell in range(0, 16)]: starting from [0], every
    adjacency entry whose arrow bit is present in [arrows] toggles the bit of
    its neighbour cell.  Every cell of [NEIGHBOURS] is non-negative, so the
    shift [1 << neighbour_cell] never raises. *)

Definition toggle (arrows : Z) (interactions : Z) (entry : Z * Z) : Z :=
  let '(neighbour_cell, arrow_back) := entry in
  if negb (Z.land arrows arrow_back =? 0)
  then Z.lxor interactions (Z.shiftl 1 neighbour_cell)
  else interactions.

Definition interactions_of (arrows : Z) (neighbours : list (Z * Z)) : Z :=
  fold_left (toggle arrows) neighbours 0.

Definition computeInteraction (arrows cell : Z) : option Z :=
  option_map (interactions_of arrows) (py_index NEIGHBOURS cell).

(** The same loop with the accumulator updated by bitwise OR instead of XOR;
    this variant is not in the generator and only serves as the other side of
    the XOR/OR comparison. *)

Definition merge_or (arrows : Z) (interactions : Z) (entry : Z * Z) : Z :=
  let '(neighbour_cell, arrow_back) := entry in
  if negb (Z.land arrows arrow_back =? 0)
  then Z.lor interactions (Z.shiftl 1 neighbour_cell)
  else interactions.

Definition interactions_of_or (arrows : Z) (neighbours : list (Z * Z)) : Z :=
  fold_left (merge_or arrows) neighbours 0.

Definition computeInteraction_or (arrows cell : Z) : option Z :=
  option_map (interactions_of_or arrows) (py_index NEIGHBOURS cell).

(** ** Board geometry

    The reading of the table used by the specification: the 16 cells are laid
    out row-major on a 4x4 board (cell = row * 4 + col, cell 0 in the top-left
    corner, cell 1 to its east), [U] is one row up, [D] one row down, [L] one
    column left, [R] one column right, and the four diagonals combine them.
    None of this is computed by the generator; it is what the table is
    compared against. *)

Module Grid.

Definition row (cell : Z) : Z := cell / 4.
Definition col (cell : Z) : Z := cell mod 4.

Definition on_board (cell : Z) : bool := (0 <=? cell) && (cell <=? 15).

(** Row and column offsets of one step along an arrow. *)
Definition delta (arrow : Z) : option (Z * Z) :=
  if arrow =? U then Some (-1, 0)
  else if arrow =? UR then Some (-1, 1)
  else if arrow =? R then Some (0, 1)
  else if arrow =? DR then Some (1, 1)
  else if arrow =? D then Some (1, 0)
  else if arrow =? DL then Some (1, -1)
  else if arrow =? L then Some (0, -1)
  else if arrow =? UL then Some (-1, -1)
  else None.

(** The cell reached from [cell] by one step along [arrow], when that step
    stays on the board (no wrap-around between rows). *)
Definition step (cell arrow : Z) : option Z :=
  match delta arrow with
  | Some (dr, dc) =>
      let r := row cell + dr in
      let c := col cell + dc in
      if on_board cell && (0 <=? r) && (r <? 4) && (0 <=? c) && (c <? 4)
      then Some (r * 4 + c)
      else None
  | None => None
  end.

(** Two distinct board cells at most one row and one column apart. *)
Definition adjacent (a b : Z) : bool :=
  on_board a && on_board b && negb (a =? b)
  && (Z.abs (row a - row b) <=? 1) && (Z.abs (col a - col b) <=? 1).

Definition opposite (arrow : Z) : Z :=
  if arrow =? U then D
  else if arrow =? D then U
  else if arrow =? L then R
  else if arrow =? R then L
  else if arrow =? UL then DR
  else if arrow =? DR then UL
  else if arrow =? UR then DL
  else if arrow =? DL then UR
  else arrow.

End Grid.

(** ** Bit-level reading of the loop *)

(** Entry [entry] fires for [arrows] and targets cell [c]. *)
Definition hit (arrows c : Z) (entry : Z * Z) : bool :=
  (fst entry =? c) && negb (Z.land arrows (snd entry) =? 0).

(** Parity of the number of firing entries that target [c]. *)
Definition odd_hits (arrows c : Z) (neighbours : list (Z * Z)) : bool :=
  fold_right (fun e b => xorb (hit arrows c e) b) false neighbours.

Definition any_hit (arrows c : Z) (neighbours : list (Z * Z)) : bool :=
  existsb (hit arrows c) neighbours.

(** Well-formedness of one adjacency list: cells are valid shift amounts. *)
Definition cells_nonneg (neighbours : list (Z * Z)) : Prop :=
  Forall (fun e => 0 <= fst e) neighbours.

Definition bits_of (cells : list Z) : Z :=
  fold_right (fun c acc => Z.lor (Z.shiftl 1 c) acc) 0 cells.

(** ** Printing

    Standard output is modelled as the list of the arguments of the [print]
    calls, oldest first; every element is followed by a newline on the real
    stream.  An uncaught exception aborts the program ([None]). *)

Module Emit.

Local Open Scope string_scope.

Definition M (A : Type) : Type := list string -> option (A * list string).

Definition ret {A : Type} (a : A) : M A := fun out => Some (a, out).

Definition bind {A B : Type} (m : M A) (k : A -> M B) : M B :=
  fun out =>
    match m out with
    | Some (a, out') => k a out'
    | None => None
    end.

Definition print (s : string) : M unit := fun out => Some (tt, (out ++ [s])%list).

(** A partial operation: [None] is the raised exception. *)
Definition lift {A : Type} (o : option A) : M A :=
  fun out =>
    match o with
    | Some a => Some (a, out)
    | None => None
    end.

Fixpoint for_ {A : Type} (xs : list A) (body : A -> M unit) : M unit :=
  match xs with
  | [] => ret tt
  | x :: rest => bind (body x) (fun _ => for_ rest body)
  end.

Notation "x <- m ;; k" := (bind m (fun x => k))
  (at level 61, m at next level, right associativity).
Notation "m ;; k" := (bind m (fun _ => k))
  (at level 61, right associativity).

(** *** Number formatting *)

Fixpoint bin_digits_pos (p : positive) (acc : string) : string :=
  match p with
  | xH => String "1" acc
  | xO q => bin_digits_pos q (String "0" acc)
  | xI q => bin_digits_pos q (String "1" acc)
  end.

Fixpoint zeros (n : nat) : string :=
  match n with
  | O => ""
  | S k => String "0" (zeros k)
  end.

Definition zfill (width : nat) (digits : string) : string :=
  zeros (width - String.length digits) ++ digits.

(** The format specification [04b]: binary digits, zero-padded to a total
    width of 4, the sign (if any) ahead of the padding. *)
Definition format_04b (n : Z) : string :=
  match n with
  | Z0 => zfill 4 "0"
  | Zpos p => zfill 4 (bin_digits_pos p "")
  | Zneg p => String "-" (zfill 3 (bin_digits_pos p ""))
  end.

(** [f"// Arrows: {arrows >> 4:04b}_{arrows & 0b1111:04b}"] *)
Definition format_arrows (arrows : Z) : string :=
  "// Arrows: " ++ format_04b (Z.shiftr arrows 4) ++ "_"
                ++ format_04b (Z.land arrows 15).

(** ["0b{:04b}_{:04b}_{:04b}_{:04b},".format(...)] on the four nibbles. *)
Definition format_interactions (interactions : Z) : string :=
  "0b" ++ format_04b (Z.land (Z.shiftr interactions 12) 15)
       ++ "_" ++ format_04b (Z.land (Z.shiftr interactions 8) 15)
       ++ "_" ++ format_04b (Z.land (Z.shiftr interactions 4) 15)
       ++ "_" ++ format_04b (Z.land (Z.shiftr interactions 0) 15)
       ++ ",".

Definition header : string :=
"// DO NOT MODIFY
// Generated using ./drivers/ai/generate-interactions.py

use tetra_master_core as core;

pub(crate) fn lookup(arrows: core::Arrows, cell: u8) -> u16 {
    INTERACTIONS[arrows.0 as usize][cell as usize]
}
".

Definition declaration : string :=
  "const INTERACTIONS: [[u16; 16]; 256] = [".

(** *** The generator's top level

    The dictionary [arrow_interactions] created in every outer iteration is
    never read or written again and is left out. *)

Definition emit_cell (arrows cell : Z) : M unit :=
  neighbours <- lift (py_index NEIGHBOURS cell) ;;
  print (format_interactions (interactions_of arrows neighbours)).

Definition emit_row (arrows : Z) : M unit :=
  print (format_arrows arrows) ;;
  print "[" ;;
  for_ (range 0 16) (emit_cell arrows) ;;
  print "],".

Definition main : M unit :=
  print header ;;
  print declaration ;;
  for_ (range 0 256) emit_row ;;
  print "];".

Definition emitTable : option (list string) :=
  option_map snd (main []).

(** *** Reading the array literal back

    What the consuming Rust compiler makes of the printed lines: a binary
    integer literal [0b...] with [_] separators, a row of such literals
    between ["["] and ["],"], line comments skipped, and the array closed by
    ["];"]. *)

Fixpoint read_bits (s : string) (acc : Z) : option Z :=
  match s with
  | "" => None
  | String c rest =>
      if Ascii.eqb c "0" then read_bits rest (2 * acc)
      else if Ascii.eqb c "1" then read_bits rest (2 * acc + 1)
      else if Ascii.eqb c "_" then read_bits rest acc
      else if Ascii.eqb c "," then
        match rest with "" => Some acc | _ => None end
      else None
  end.

Definition read_entry (line : string) : option Z :=
  match line with
  | String "0" (String "b" digits) => read_bits digits 0
  | _ => None
  end.

Fixpoint read_rows (lines : list string) (cur : option (list Z))
    (done : list (list Z)) : option (list (list Z)) :=
  match lines with
  | [] => None
  | line :: rest =>
      if String.prefix "//" line then read_rows rest cur done
      else if String.eqb line "[" then
        match cur with
        | None => read_rows rest (Some []) done
        | Some _ => None
        end
      else if String.eqb line "]," then
        match cur with
        | Some r => read_rows rest None (done ++ [r])%list
        | None => None
        end
      else if String.eqb line "];" then
        match cur, rest with
        | None, [] => Some done
        | _, _ => None
        end
      else
        match cur, read_entry line with
        | Some r, Some v => read_rows rest (Some (r ++ [v])%list) done
        | _, _ => None
        end
  end.

Definition read_table (out : list string) : option (list (list Z)) :=
  match out with
  | _ :: decl :: rest =>
      if String.eqb decl declaration then read_rows rest None [] else None
  | _ => None
  end.

(** *** The output in closed form

    What the two nested loops add up to; the generator is shown below to
    print exactly this. *)

Definition cell_lines (arrows cell : Z) : list string :=
  match py_index NEIGHBOURS cell with
  | Some nb => [format_interactions (interactions_of arrows nb)]
  | None => []
  end.

Definition row_masks (arrows : Z) : list Z :=
  map (interactions_of arrows) NEIGHBOURS.

Definition row_lines (arrows : Z) : list string :=
  ([format_arrows arrows; "["]
     ++ map format_interactions (row_masks arrows) ++ ["],"])%list.

Definition expected_output : list string :=
  ([header; declaration]
     ++ flat_map row_lines (range 0 256) ++ ["];"])%list.

End Emit.

(** * The benchmark-delta reporter

    [drivers/ai/improve-iai-output.py] copies its input to the output line by
    line, collects the five counters printed under each benchmark name, and
    then prints, for every benchmark but the first, the difference of each
    counter to the first benchmark's. *)

Module Iai.

Local Open Scope string_scope.

Inductive exn : Type := KeyError | IndexError | ValueError.

(** An argument of a [print] call. *)
Inductive value : Type :=
| Str (s : string)
| Int (n : Z).

(** One write to standard output: the pass-through [print(line, end='')],
    which adds nothing to the line, or an ordinary [print] of its arguments. *)
Inductive out_item : Type :=
| Echo (line : string)
| Print (args : list value).

(** A Python [dict] with string keys: insertion-ordered, a store to an
    existing key keeps the key's position. *)
Definition dict (V : Type) : Type := list (string * V).

Fixpoint dict_get {V : Type} (d : dict V) (k : string) : option V :=
  match d with
  | [] => None
  | (k', v) :: rest => if String.eqb k' k then Some v else dict_get rest k
  end.

Fixpoint dict_set {V : Type} (d : dict V) (k : string) (v : V) : dict V :=
  match d with
  | [] => [(k, v)]
  | (k', v') :: rest =>
      if String.eqb k' k then (k', v) :: rest
      else (k', v') :: dict_set rest k v
  end.

Definition keys {V : Type} (d : dict V) : list string := map fst d.

(** Output written so far, and either the exception that ended the run or a
    result. *)
Definition M (A : Type) : Type := list out_item -> list out_item * (exn + A).

Definition ret {A : Type} (a : A) : M A := fun out => (out, inr a).

Definition raise {A : Type} (e : exn) : M A := fun out => (out, inl e).

Definition bind {A B : Type} (m : M A) (k : A -> M B) : M B :=
  fun out =>
    match m out with
    | (out', inr a) => k a out'
    | (out', inl e) => (out', inl e)
    end.

Definition emit (item : out_item) : M unit :=
  fun out => ((out ++ [item])%list, inr tt).

Definition lift {A : Type} (r : exn + A) : M A :=
  fun out => (out, r).

Fixpoint for_ {A : Type} (xs : list A) (body : A -> M unit) : M unit :=
  match xs with
  | [] => ret tt
  | x :: rest => bind (body x) (fun _ => for_ rest body)
  end.

Notation "x <- m ;; k" := (bind m (fun x => k))
  (at level 61, m at next level, right associativity).
Notation "m ;; k" := (bind m (fun _ => k))
  (at level 61, right associativity).

(** [d[k]], raising [KeyError] on a missing key. *)
Definition lookup {V : Type} (d : dict V) (k : string) : exn + V :=
  match dict_get d k with
  | Some v => inr v
  | None => inl KeyError
  end.

(** The collected results and the current benchmark name ([None] until the
    first name line). *)
Definition state : Type := (dict (dict Z) * option string)%type.

Section Builtins.

(** The string methods [str.strip()] and [str.split()] and the conversion
    [int(...)] ([None] for its [ValueError]) of the Python library. *)
Variable strip : string -> string.
Variable split : string -> list string.
Variable int : string -> option Z.

(** [results[curr][key] = int(line.split()[field])]: the right-hand side is
    evaluated first, then [results[curr]]. *)
Definition store (st : state) (key : string) (field : nat) (line : string)
  : exn + state :=
  let '(results, curr) := st in
  match nth_error (split line) field with
  | None => inl IndexError
  | Some word =>
      match int word with
      | None => inl ValueError
      | Some n =>
          match curr with
          | None => inl KeyError
          | Some c =>
              match dict_get results c with
              | None => inl KeyError
              | Some inner =>
                  inr (dict_set results c (dict_set inner key n), curr)
              end
          end
      end
  end.

Definition parse_line (st : state) (line : string) : exn + state :=
  if String.prefix "Instructions:" line then store st "instructions" 1 line
  else if String.prefix "L1 Accesses:" line then store st "l1-accesses" 2 line
  else if String.prefix "L2 Accesses:" line then store st "l2-accesses" 2 line
  else if String.prefix "RAM Accesses:" line then store st "ram-accesses" 2 line
  else if String.prefix "Estimated Cycles:" line
       then store st "estimated-cycles" 2 line
  else if negb (String.eqb line "")
       then inr (dict_set (fst st) line [], Some line)
  else inr st.

Fixpoint read_lines (lines : list string) (st : state) : M state :=
  match lines with
  | [] => ret st
  | raw :: rest =>
      emit (Echo raw) ;;
      st' <- lift (parse_line st (strip raw)) ;;
      read_lines rest st'
  end.

(** [res[key] - first[key]] *)
Definition difference (res first : dict Z) (key : string) : exn + Z :=
  match lookup res key with
  | inl e => inl e
  | inr a =>
      match lookup first key with
      | inl e => inl e
      | inr b => inr (a - b)
      end
  end.

Definition report_one (results : dict (dict Z)) (first : dict Z)
    (name : string) : M unit :=
  res <- lift (lookup results name) ;;
  emit (Print [Str name]) ;;
  d <- lift (difference res first "instructions") ;;
  emit (Print [Str "  Instructions:"; Int d]) ;;
  d <- lift (difference res first "l1-accesses") ;;
  emit (Print [Str "  L1 Accesses:"; Int d]) ;;
  d <- lift (difference res first "l2-accesses") ;;
  emit (Print [Str "  L2 Accesses:"; Int d]) ;;
  d <- lift (difference res first "ram-accesses") ;;
  emit (Print [Str "  RAM Accesses:"; Int d]) ;;
  d <- lift (difference res first "estimated-cycles") ;;
  emit (Print [Str "  Estimated Cycles:"; Int d]) ;;
  emit (Print []).

(** [first, *rest = results.keys()] raises [ValueError] on an empty dict. *)
Definition report (results : dict (dict Z)) : M unit :=
  match keys results with
  | [] => raise ValueError
  | first :: rest =>
      first_res <- lift (lookup results first) ;;
      emit (Print [Str "--- Deltas ---"]) ;;
      for_ rest (report_one results first_res)
  end.

Definition main (lines : list string) : list out_item * (exn + unit) :=
  (st <- read_lines lines ([], None) ;; report (fst st)) [].

(** Input as the benchmark tool writes it: a counter line starts, once
    stripped, with its label and carries the number in the given field. *)
Definition metric_line (raw label : string) (field : nat) (n : Z) : Prop :=
  String.prefix label (strip raw) = true
  /\ exists word,
       nth_error (split (strip raw)) field = Some word /\ int word = Some n.

Definition is_metric (line : string) : bool :=
  String.prefix "Instructions:" line || String.prefix "L1 Accesses:" line
  || String.prefix "L2 Accesses:" line || String.prefix "RAM Accesses:" line
  || String.prefix "Estimated Cycles:" line.

End Builtins.

(** One benchmark as the input is meant to describe it. *)
Record sample : Type := {
  s_name : string;
  s_instructions : Z;
  s_l1 : Z;
  s_l2 : Z;
  s_ram : Z;
  s_cycles : Z
}.

(** The lines [report_one] prints for a benchmark against the first one. *)
Definition delta_block (first b : sample) : list out_item :=
  [ Print [Str (s_name b)];
    Print [Str "  Instructions:"; Int (s_instructions b - s_instructions first)];
    Print [Str "  L1 Accesses:"; Int (s_l1 b - s_l1 first)];
    Print [Str "  L2 Accesses:"; Int (s_l2 b - s_l2 first)];
    Print [Str "  RAM Accesses:"; Int (s_ram b - s_ram first)];
    Print [Str "  Estimated Cycles:"; Int (s_cycles b - s_cycles first)];
    Print [] ].

(** The inner dictionary a complete block of counters leaves behind. *)
Definition counters (b : sample) : dict Z :=
  [ ("instructions", s_instructions b); ("l1-accesses", s_l1 b);
    ("l2-accesses", s_l2 b); ("ram-accesses", s_ram b);
    ("estimated-cycles", s_cycles b) ].

Definition entry (b : sample) : string * dict Z := (s_name b, counters b).

(** A name line followed by the five counter lines of benchmark [b]. *)
Definition well_formed (strip : string -> string)
    (split : string -> list string) (int : string -> option Z)
    (b : sample) (raws : list string) : Prop :=
  exists r0 r1 r2 r3 r4 r5,
    raws = [r0; r1; r2; r3; r4; r5]
    /\ strip r0 = s_name b
    /\ s_name b <> ""
    /\ is_metric (s_name b) = false
    /\ metric_line strip split int r1 "Instructions:" 1 (s_instructions b)
    /\ metric_line strip split int r2 "L1 Accesses:" 2 (s_l1 b)
    /\ metric_line strip split int r3 "L2 Accesses:" 2 (s_l2 b)
    /\ metric_line strip split int r4 "RAM Accesses:" 2 (s_ram b)
    /\ metric_line strip split int r5 "Estimated Cycles:" 2 (s_cycles b).

(** *** Instances of the builtins on plain ASCII text

    Enough of [str.strip()], [str.split()] and [int()] to run the reporter on
    concrete lines: blanks are the six ASCII whitespace characters, numbers
    are unsigned decimal. *)

Definition is_space (c : ascii) : bool :=
  let n := nat_of_ascii c in
  (Nat.eqb n 32 || (Nat.leb 9 n && Nat.leb n 13))%bool.

Fixpoint lstrip (s : string) : string :=
  match s with
  | "" => ""
  | String c rest => if is_space c then lstrip rest else s
  end.

Fixpoint rstrip (s : string) : string :=
  match s with
  | "" => ""
  | String c rest =>
      let rest' := rstrip rest in
      if is_space c && String.eqb rest' "" then "" else String c rest'
  end.

Definition ascii_strip (s : string) : string := rstrip (lstrip s).

Fixpoint split_ws (s cur : string) : list string :=
  match s with
  | "" => if String.eqb cur "" then [] else [cur]
  | String c rest =>
      if is_space c
      then if String.eqb cur "" then split_ws rest ""
           else cur :: split_ws rest ""
      else split_ws rest (cur ++ String c "")
  end.

Definition ascii_split (s : string) : list string := split_ws s "".

Fixpoint decimal (s : string) (acc : Z) : option Z :=
  match s with
  | "" => Some acc
  | String c rest =>
      let n := nat_of_ascii c in
      if (Nat.leb 48 n && Nat.leb n 57)%bool
      then decimal rest (10 * acc + Z.of_nat (n - 48))
      else None
  end.

Definition ascii_int (s : string) : option Z :=
  match s with
  | "" => None
  | _ => decimal s 0
  end.

Definition is_print (item : out_item) : Prop :=
  match item with
  | Print _ => True
  | Echo _ => False
  end.

End Iai.

(** * The probability-table printers

    [drivers/probability-scripts/generate-code.py] and
    [generate-win-probabilities.py] print a table loaded from JSON as a Rust
    array literal, one line per (attack, defense) pair. *)

Module Probs.

Local Open Scope string_scope.

Inductive exn : Type := KeyError | ValueError | TypeError.

(** Arguments of the [print] calls so far, and either the exception that
    ended the run or a result. *)
Definition M (A : Type) : Type := list string -> list string * (exn + A).

Definition ret {A : Type} (a : A) : M A := fun out => (out, inr a).

Definition bind {A B : Type} (m : M A) (k : A -> M B) : M B :=
  fun out =>
    match m out with
    | (out', inr a) => k a out'
    | (out', inl e) => (out', inl e)
    end.

Definition print (s : string) : M unit :=
  fun out => ((out ++ [s])%list, inr tt).

Definition lift {A : Type} (r : exn + A) : M A := fun out => (out, r).

Fixpoint for_ {A : Type} (xs : list A) (body : A -> M unit) : M unit :=
  match xs with
  | [] => ret tt
  | x :: rest => bind (body x) (fun _ => for_ rest body)
  end.

Notation "x <- m ;; k" := (bind m (fun x => k))
  (at level 61, m at next level, right associativity).
Notation "m ;; k" := (bind m (fun _ => k))
  (at level 61, right associativity).

(** [str(n)] of an integer: decimal, with a minus sign when negative. *)
Definition str (n : Z) : string :=
  DecimalString.NilZero.string_of_int (Z.to_int n).

Definition upper (c : ascii) : ascii :=
  let n := nat_of_ascii c in
  if (Nat.leb 97 n && Nat.leb n 122)%bool then ascii_of_nat (n - 32) else c.

Fixpoint upper_string (s : string) : string :=
  match s with
  | "" => ""
  | String c rest => String (upper c) (upper_string rest)
  end.

(** The format specification [X]: upper-case hexadecimal. *)
Definition format_X (n : Z) : string :=
  upper_string (HexadecimalString.NilZero.string_of_int (Z.to_hex_int n)).

Section Table.

(** The values found in the loaded JSON, the floats, the conversion
    [float(...)] with its exceptions, and the format specification [f]. *)
Variable J : Type.
Variable F : Type.
Variable float : J -> exn + F.
Variable format_f : F -> string.

(** [float(table[str(at)][str(de)])] on a table that is an object of
    objects. *)
Definition item (table : Iai.dict (Iai.dict J)) (at_ de : Z) : exn + F :=
  match Iai.dict_get table (str at_) with
  | None => inl KeyError
  | Some row =>
      match Iai.dict_get row (str de) with
      | None => inl KeyError
      | Some j => float j
      end
  end.

(** [f"// Attack: {at:X}"] and [f"{prob:f}, // {at:X} v {de:X}"] *)
Definition attack_comment (at_ : Z) : string := "// Attack: " ++ format_X at_.

Definition entry_line (prob : F) (at_ de : Z) : string :=
  format_f prob ++ ", // " ++ format_X at_ ++ " v " ++ format_X de.

(** [print_lookup_table] of [generate-code.py]: a flat array. *)
Definition print_lookup_table (name : string)
    (table : Iai.dict (Iai.dict J)) : M unit :=
  print "" ;;
  print ("const " ++ name ++ ": [f32; 256] = [") ;;
  for_ (range 0 (0xF + 1)) (fun at_ =>
    print (attack_comment at_) ;;
    for_ (range 0 (0xF + 1)) (fun de =>
      prob <- lift (item table at_ de) ;;
      print (entry_line prob at_ de))) ;;
  print "];".

(** [print_lookup_table] of [generate-win-probabilities.py]: an array of
    rows. *)
Definition print_lookup_table_2d (name : string)
    (table : Iai.dict (Iai.dict J)) : M unit :=
  print "" ;;
  print ("const " ++ name ++ ": [[f32; 16]; 16] = [") ;;
  for_ (range 0 (0xF + 1)) (fun at_ =>
    print (attack_comment at_) ;;
    print "[" ;;
    for_ (range 0 (0xF + 1)) (fun de =>
      prob <- lift (item table at_ de) ;;
      print (entry_line prob at_ de)) ;;
    print "],") ;;
  print "];".

(** *** The output in closed form, for a table with values [p at de] *)

Definition entries_upto (p : Z -> Z -> F) (at_ hi : Z) : list string :=
  map (fun de => entry_line (p at_ de) at_ de) (range 0 hi).

Definition row_entries (p : Z -> Z -> F) (at_ : Z) : list string :=
  entries_upto p at_ 16.

Definition flat_row (p : Z -> Z -> F) (at_ : Z) : list string :=
  attack_comment at_ :: row_entries p at_.

Definition bracketed_row (p : Z -> Z -> F) (at_ : Z) : list string :=
  (attack_comment at_ :: "[" :: row_entries p at_ ++ ["],"])%list.

(** The elements of the printed array as the Rust compiler sees them: the
    lines after the declaration and before the closing bracket that are not
    line comments. *)
Definition array_elements (printed : list string) : list string :=
  filter (fun l => negb (String.prefix "//" l)) (removelast (skipn 2 printed)).

End Table.

(** What [json.load] returns for a table written by [json.dumps]: integer
    keys have become their [str]. *)
Definition str_keys {V : Type} (data : list (Z * list (Z * V)))
  : Iai.dict (Iai.dict V) :=
  map (fun row => (str (fst row),
                   map (fun cell => (str (fst cell), snd cell)) (snd row)))
      data.

(** A stand-in for the format specification [f] on the two values of the
    deterministic table, encoded as 1 and 0. *)
Definition format_01 (x : Z) : string :=
  if Z.eqb x 0 then "0.000000" else "1.000000".

Arguments item {J F} float table at_ de.
Arguments entry_line {F} format_f prob at_ de.
Arguments print_lookup_table {J F} float format_f name table.
Arguments print_lookup_table_2d {J F} float format_f name table.
Arguments entries_upto {F} format_f p at_ hi.
Arguments row_entries {F} format_f p at_.
Arguments flat_row {F} format_f p at_.
Arguments bracketed_row {F} format_f p at_.

End Probs.

(** * The deterministic probability table

    [drivers/probability-scripts/calc-deterministic-probs.py] fills a
    [defaultdict(dict)] with one float per (attack, defense) pair. *)

Module Deterministic.

(** A Python [dict] with integer keys, insertion-ordered. *)
Definition zdict (V : Type) : Type := list (Z * V).

Fixpoint zget {V : Type} (d : zdict V) (k : Z) : option V :=
  match d with
  | [] => None
  | (k', v) :: rest => if k' =? k then Some v else zget rest k
  end.

Fixpoint zset {V : Type} (d : zdict V) (k : Z) (v : V) : zdict V :=
  match d with
  | [] => [(k, v)]
  | (k', v') :: rest =>
      if k' =? k then (k', v) :: rest else (k', v') :: zset rest k v
  end.

Section Floats.

(** The floats and the two literals [1.0] and [0.0]. *)
Variable F : Type.
Variable one : F.
Variable zero : F.

(** [data[at][de] = v] on a [defaultdict(dict)]: a missing row is created
    empty by the access [data[at]]. *)
Definition set2 (data : zdict (zdict F)) (at_ de : Z) (v : F)
  : zdict (zdict F) :=
  let row := match zget data at_ with
             | Some r => r
             | None => []
             end in
  zset data at_ (zset row de v).

Definition data : zdict (zdict F) :=
  fold_left
    (fun data at_ =>
       fold_left
         (fun data de => set2 data at_ de (if at_ >? de then one else zero))
         (range 0 (0xF + 1)) data)
    (range 0 (0xF + 1)) [].

Definition get2 (data : zdict (zdict F)) (at_ de : Z) : option F :=
  match zget data at_ with
  | Some row => zget row de
  | None => None
  end.

End Floats.

Arguments set2 {F} data at_ de v.
Arguments data {F} one zero.
Arguments get2 {F} data at_ de.

End Deterministic.

(** The deterministic table as loaded from its JSON file, with [1.0] and
    [0.0] encoded as 1 and 0. *)
Definition sample_table : Iai.dict (Iai.dict Z) :=
  Eval vm_compute in Probs.str_keys (Deterministic.data 1 0).

Definition sample_value (at_ de : Z) : Z := if at_ >? de then 1 else 0.

(** The sample table holds the sample value under the pair. *)
Definition sample_cell_ok (at_ de : Z) : bool :=
  match Probs.item (fun j : Z => inr j) sample_table at_ de with
  | inr v => v =? sample_value at_ de
  | inl _ => false
  end.

(** * The CSV loader of the table viewer

    [load_anydice] of [drivers/probability-scripts/print-table.py] turns the
    rows of a CSV export into a dictionary of dictionaries, keyed by the two
    halves of a label such as ["3 v 7"]. *)

Module Anydice.

Local Open Scope string_scope.

Inductive exn : Type := KeyError | ValueError.

Section Loader.

(** The floats, the substring test [' v ' in label], the method
    [label.split(' v ')] and the conversion [float(...)] ([None] for its
    [ValueError]) of the Python library. *)
Variable F : Type.
Variable contains_v : string -> bool.
Variable split_v : string -> list string.
Variable float : string -> option F.

(** One iteration of the loop over the rows of [csv.reader]; every field of
    such a row is a [str], so the [type(row[0]) != str] test never fires. *)
Definition load_row (data : Iai.dict (Iai.dict F)) (row : list string)
  : exn + Iai.dict (Iai.dict F) :=
  match row with
  | label :: value :: _ =>
      if negb (contains_v label) then inr data
      else
        match split_v label with
        | [at_; de] =>
            let data1 :=
              match Iai.dict_get data at_ with
              | None => Iai.dict_set data at_ []
              | Some _ => data
              end in
            match float value with
            | None => inl ValueError
            | Some prob =>
                match Iai.dict_get data1 at_ with
                | None => inl KeyError
                | Some inner =>
                    inr (Iai.dict_set data1 at_ (Iai.dict_set inner de prob))
                end
            end
        | _ => inl ValueError
        end
  | _ => inr data
  end.

Fixpoint load_rows (data : Iai.dict (Iai.dict F)) (rows : list (list string))
  : exn + Iai.dict (Iai.dict F) :=
  match rows with
  | [] => inr data
  | row :: rest =>
      match load_row data row with
      | inl e => inl e
      | inr data' => load_rows data' rest
      end
  end.

Definition load_anydice (rows : list (list string))
  : exn + Iai.dict (Iai.dict F) :=
  load_rows [] rows.

(** [data[at][de]] as a total lookup. *)
Definition get2 (data : Iai.dict (Iai.dict F)) (at_ de : string) : option F :=
  match Iai.dict_get data at_ with
  | Some inner => Iai.dict_get inner de
  | None => None
  end.

(** The row is not skipped and its label splits into [at_] and [de]. *)
Definition targets (row : list string) (at_ de : string) : Prop :=
  exists label value rest,
    row = label :: value :: rest
    /\ contains_v label = true
    /\ split_v label = [at_; de].

(** The row is not skipped by the two [continue] tests. *)
Definition considered (row : list string) : bool :=
  match row with
  | label :: _ :: _ => contains_v label
  | _ => false
  end.

(** The row stores [prob] under [at_], [de]. *)
Definition hits (row : list string) (at_ de : string) (prob : F) : Prop :=
  exists label value rest,
    row = label :: value :: rest
    /\ contains_v label = true
    /\ split_v label = [at_; de]
    /\ float value = Some prob.

(** Some row of [rows] stores [p] under the pair and no later row stores
    anything there. *)
Definition found (rows : list (list string)) (at_ de : string) (p : F) : Prop :=
  exists pre r post,
    rows = (pre ++ r :: post)%list
    /\ hits r at_ de p
    /\ Forall (fun r' => ~ targets r' at_ de) post.

End Loader.

(** *** Instances of the builtins on plain ASCII text

    The substring test and [str.split] with a non-empty separator, to run the
    loader on concrete rows. *)

Fixpoint has_substring (sep s : string) : bool :=
  String.prefix sep s
  || match s with
     | "" => false
     | String _ rest => has_substring sep rest
     end.

Fixpoint split_on (sep s cur : string) (skip : nat) : list string :=
  match s with
  | "" => [cur]
  | String c rest =>
      match skip with
      | S k => split_on sep rest cur k
      | O =>
          if String.prefix sep s
          then cur :: split_on sep rest "" (String.length sep - 1)
          else split_on sep rest (cur ++ String c "") 0
      end
  end.

Definition ascii_contains_v (s : string) : bool := has_substring " v " s.

Definition ascii_split_v (s : string) : list string := split_on " v " s "" 0.

Arguments load_row {F} contains_v split_v float data row.
Arguments load_rows {F} contains_v split_v float data rows.
Arguments load_anydice {F} contains_v split_v float rows.
Arguments get2 {F} data at_ de.
Arguments hits {F} contains_v split_v float row at_ de prob.
Arguments found {F} contains_v split_v float rows at_ de p.

End Anydice.

(** * Properties *)

(** ** Indexing and ranges *)

Lemma py_index_In {A : Type} (l : list A) (i : Z) (x : A) :
  py_index l i = Some x -> In x l.
Proof.
  unfold py_index.
  destruct (0 <=? i); [apply nth_error_In|].
  destruct (- Z.of_nat (List.length l) <=? i); [apply nth_error_In|discriminate].
Qed.

Lemma py_index_nonneg {A : Type} (l : list A) (i : Z) :
  0 <= i -> py_index l i = nth_error l (Z.to_nat i).
Proof.
  intros Hi. unfold py_index.
  destruct (Z.leb_spec 0 i); [reflexivity|lia].
Qed.

Lemma In_range (lo hi k : Z) : lo <= k < hi -> In k (range lo hi).
Proof.
  intros Hk. unfold range. apply in_map_iff.
  exists (Z.to_nat (k - lo)). split; [lia|].
  apply in_seq. lia.
Qed.

(** The sixteen cells, one goal each. *)
Ltac each_cell c :=
  let H := fresh "Hc" in
  assert (H : In c (range 0 16)) by (apply In_range; lia);
  cbv in H;
  repeat (destruct H as [H | H]; [subst c|]);
  [..|contradiction].

Lemma cell_has_neighbours (cell : Z) :
  0 <= cell <= 15 -> exists nb, py_index NEIGHBOURS cell = Some nb.
Proof.
  intros Hc. each_cell cell; eexists; reflexivity.
Qed.

(** ** The table is well formed: valid shift amounts, no repeated cell *)

Lemma NEIGHBOURS_nonneg : Forall cells_nonneg NEIGHBOURS.
Proof.
  unfold NEIGHBOURS, cells_nonneg.
  repeat (apply Forall_cons; [repeat constructor; simpl; lia|]).
  apply Forall_nil.
Qed.

Lemma NEIGHBOURS_nodup : Forall (fun nb => NoDup (map fst nb)) NEIGHBOURS.
Proof.
  unfold NEIGHBOURS.
  repeat (apply Forall_cons;
          [simpl; repeat (apply NoDup_cons; [simpl; intuition lia|]);
           apply NoDup_nil|]).
  apply Forall_nil.
Qed.

Lemma row_nonneg (cell : Z) (nb : list (Z * Z)) :
  py_index NEIGHBOURS cell = Some nb -> cells_nonneg nb.
Proof.
  intros H. apply py_index_In in H.
  exact (proj1 (Forall_forall _ _) NEIGHBOURS_nonneg _ H).
Qed.

Lemma row_nodup (cell : Z) (nb : list (Z * Z)) :
  py_index NEIGHBOURS cell = Some nb -> NoDup (map fst nb).
Proof.
  intros H. apply py_index_In in H.
  exact (proj1 (Forall_forall _ _) NEIGHBOURS_nodup _ H).
Qed.

(** ** Bits of the accumulated mask *)

Lemma testbit_one_shl (n c : Z) :
  0 <= n -> 0 <= c -> Z.testbit (Z.shiftl 1 n) c = (n =? c).
Proof.
  intros Hn Hc. rewrite Z.shiftl_1_l. now apply Z.pow2_bits_eqb.
Qed.

Section Loop.

Variable arrows : Z.

Lemma fold_toggle_testbit (nb : list (Z * Z)) :
  cells_nonneg nb ->
  forall acc c, 0 <= c ->
    Z.testbit (fold_left (toggle arrows) nb acc) c
    = xorb (Z.testbit acc c) (odd_hits arrows c nb).
Proof.
  induction 1 as [|[n ab] nb Hn Hnb IH]; intros acc c Hc; simpl.
  - now rewrite xorb_false_r.
  - rewrite IH by assumption. unfold hit; simpl in *.
    destruct (Z.land arrows ab =? 0); simpl.
    + now rewrite andb_false_r.
    + rewrite Z.lxor_spec, testbit_one_shl by assumption.
      now rewrite andb_true_r, xorb_assoc.
Qed.

Lemma fold_or_testbit (nb : list (Z * Z)) :
  cells_nonneg nb ->
  forall acc c, 0 <= c ->
    Z.testbit (fold_left (merge_or arrows) nb acc) c
    = Z.testbit acc c || any_hit arrows c nb.
Proof.
  induction 1 as [|[n ab] nb Hn Hnb IH]; intros acc c Hc; simpl.
  - now rewrite orb_false_r.
  - rewrite IH by assumption. unfold hit; simpl in *.
    destruct (Z.land arrows ab =? 0); simpl.
    + now rewrite andb_false_r.
    + rewrite Z.lor_spec, testbit_one_shl by assumption.
      now rewrite andb_true_r, orb_assoc.
Qed.

Lemma any_hit_In (c : Z) (nb : list (Z * Z)) :
  any_hit arrows c nb = true -> In c (map fst nb).
Proof.
  unfold any_hit. intros H. apply existsb_exists in H as [e [He Hh]].
  unfold hit in Hh. apply andb_prop in Hh as [Hf _].
  apply Z.eqb_eq in Hf. subst c. now apply in_map.
Qed.

Lemma nodup_odd_any (c : Z) (nb : list (Z * Z)) :
  NoDup (map fst nb) -> odd_hits arrows c nb = any_hit arrows c nb.
Proof.
  induction nb as [|e nb IH]; simpl; intros Hnd; [reflexivity|].
  inversion Hnd as [|? ? Hnotin Hnd']; subst.
  rewrite IH by assumption.
  destruct (hit arrows c e) eqn:Hh; simpl; [|reflexivity].
  destruct (any_hit arrows c nb) eqn:Ha; [|reflexivity].
  exfalso. apply Hnotin. apply any_hit_In in Ha.
  unfold hit in Hh. apply andb_prop in Hh as [Hf _].
  apply Z.eqb_eq in Hf. now rewrite Hf.
Qed.

Lemma interactions_testbit (nb : list (Z * Z)) (c : Z) :
  cells_nonneg nb -> NoDup (map fst nb) -> 0 <= c ->
  Z.testbit (interactions_of arrows nb) c = any_hit arrows c nb.
Proof.
  intros Hnn Hnd Hc. unfold interactions_of.
  rewrite fold_toggle_testbit by assumption.
  rewrite Z.bits_0. simpl. now apply nodup_odd_any.
Qed.

Lemma interactions_or_testbit (nb : list (Z * Z)) (c : Z) :
  cells_nonneg nb -> 0 <= c ->
  Z.testbit (interactions_of_or arrows nb) c = any_hit arrows c nb.
Proof.
  intros Hnn Hc. unfold interactions_of_or.
  rewrite fold_or_testbit by assumption.
  now rewrite Z.bits_0.
Qed.

Lemma xor_or_agree (nb : list (Z * Z)) :
  cells_nonneg nb -> NoDup (map fst nb) ->
  interactions_of arrows nb = interactions_of_or arrows nb.
Proof.
  intros Hnn Hnd. apply Z.bits_inj'. intros c Hc.
  now rewrite interactions_testbit, interactions_or_testbit.
Qed.

End Loop.

(** ** The adjacency table against the board *)

Ltac open_row Hidx :=
  cbv in Hidx; injection Hidx as <-.

Ltac each_entry Hin :=
  simpl in Hin;
  repeat (destruct Hin as [Hin | Hin]; [injection Hin as <- <-|]);
  [..|contradiction].

(** C1, as amended: for every cell X of the board and every pair (Y, d) in
    X's adjacency list, d is the direction of the step from the subject cell X
    to the neighbour Y. *)
Theorem neighbour_direction_is_forward (X Y d : Z) (nb : list (Z * Z)) :
  0 <= X <= 15 ->
  py_index NEIGHBOURS X = Some nb ->
  In (Y, d) nb ->
  Grid.step X d = Some Y.
Proof.
  intros HX Hidx Hin.
  each_cell X; open_row Hidx; each_entry Hin; reflexivity.
Qed.

Lemma neighbour_direction_is_forward_witness :
  Grid.step 7 DL = Some 10.
Proof.
  apply (neighbour_direction_is_forward 7 10 DL
           [(3, U); (11, D); (10, DL); (6, L); (2, UL)]).
  - lia.
  - reflexivity.
  - simpl. auto.
Defined.

(** C1, as stated, fails: cell 0 lists (1, R), yet the step from cell 1 along
    R lands on cell 2, not back on cell 0; R is the step from 0 to 1. *)
Lemma neighbour_direction_not_backward :
  exists nb,
    py_index NEIGHBOURS 0 = Some nb /\ In (1, R) nb
    /\ Grid.step 1 R = Some 2 /\ Grid.step 1 R <> Some 0
    /\ Grid.step 0 R = Some 1.
Proof.
  eexists. split; [reflexivity|].
  split; [simpl; auto|].
  repeat split; try reflexivity. discriminate.
Qed.

(** C4: the adjacency relation is symmetric: if (Y, d) is in X's list then
    (X, opposite d) is in Y's list. *)
Theorem adjacency_symmetric (X Y d : Z) (nbX : list (Z * Z)) :
  0 <= X <= 15 ->
  py_index NEIGHBOURS X = Some nbX ->
  In (Y, d) nbX ->
  exists nbY,
    py_index NEIGHBOURS Y = Some nbY /\ In (X, Grid.opposite d) nbY.
Proof.
  intros HX Hidx Hin.
  each_cell X; open_row Hidx; each_entry Hin;
    (eexists; split; [reflexivity|simpl; tauto]).
Qed.

Lemma adjacency_symmetric_witness :
  exists nbY,
    py_index NEIGHBOURS 6 = Some nbY /\ In (11, Grid.opposite UL) nbY.
Proof.
  apply (adjacency_symmetric 11 6 UL
           [(6, UL); (7, U); (10, L); (14, DL); (15, D)]).
  - lia.
  - reflexivity.
  - simpl. auto.
Defined.

(** C5: corner cells have 3 entries, the other edge cells 5, the interior
    cells 8. *)
Theorem neighbour_counts :
  Forall (fun c => option_map (@List.length _) (py_index NEIGHBOURS c)
                   = Some 3%nat) [0; 3; 12; 15]
  /\ Forall (fun c => option_map (@List.length _) (py_index NEIGHBOURS c)
                      = Some 5%nat) [1; 2; 4; 7; 8; 11; 13; 14]
  /\ Forall (fun c => option_map (@List.length _) (py_index NEIGHBOURS c)
                      = Some 8%nat) [5; 6; 9; 10].
Proof.
  repeat split; repeat constructor.
Qed.

Lemma listed_cells_adjacent (X Y d : Z) (nb : list (Z * Z)) :
  0 <= X <= 15 ->
  py_index NEIGHBOURS X = Some nb ->
  In (Y, d) nb ->
  Grid.adjacent X Y = true.
Proof.
  intros HX Hidx Hin.
  each_cell X; open_row Hidx; each_entry Hin; reflexivity.
Qed.

(** ** The interaction masks *)

Lemma computeInteraction_row (arrows cell : Z) (nb : list (Z * Z)) :
  py_index NEIGHBOURS cell = Some nb ->
  computeInteraction arrows cell = Some (interactions_of arrows nb).
Proof.
  intros H. unfold computeInteraction. now rewrite H.
Qed.

Lemma computeInteraction_testbit (arrows cell c : Z) (nb : list (Z * Z)) :
  py_index NEIGHBOURS cell = Some nb -> 0 <= c ->
  Z.testbit (interactions_of arrows nb) c = any_hit arrows c nb.
Proof.
  intros H Hc. apply interactions_testbit; [eapply row_nonneg|eapply row_nodup|];
    eassumption.
Qed.

(** C2: on every arrow byte and every cell the XOR-accumulated loop and the
    OR-accumulated loop return the same mask, and the adjacency list of the
    cell names no neighbour cell twice. *)
Theorem xor_equals_or (arrows cell : Z) :
  0 <= arrows <= 255 -> 0 <= cell <= 15 ->
  exists nb v,
    py_index NEIGHBOURS cell = Some nb
    /\ NoDup (map fst nb)
    /\ computeInteraction arrows cell = Some v
    /\ computeInteraction_or arrows cell = Some v.
Proof.
  intros _ Hc. destruct (cell_has_neighbours cell Hc) as [nb Hnb].
  exists nb, (interactions_of arrows nb).
  split; [assumption|].
  split; [eapply row_nodup; eassumption|].
  split; [now apply computeInteraction_row|].
  unfold computeInteraction_or. rewrite Hnb. simpl. f_equal.
  symmetry. apply xor_or_agree; [eapply row_nonneg|eapply row_nodup]; eassumption.
Qed.

Lemma xor_equals_or_witness :
  exists nb v,
    py_index NEIGHBOURS 9 = Some nb
    /\ NoDup (map fst nb)
    /\ computeInteraction 165 9 = Some v
    /\ computeInteraction_or 165 9 = Some v.
Proof.
  apply (xor_equals_or 165 9); lia.
Defined.

(** C3: on every arrow byte and every cell a mask is returned, and every bit
    set in it is the bit of a cell that is in the subject cell's adjacency
    list and is adjacent to it on the board. *)
Theorem interaction_bits_are_neighbours (arrows cell : Z) :
  0 <= arrows <= 255 -> 0 <= cell <= 15 ->
  exists nb v,
    py_index NEIGHBOURS cell = Some nb
    /\ computeInteraction arrows cell = Some v
    /\ forall c, Z.testbit v c = true ->
         In c (map fst nb) /\ Grid.adjacent cell c = true.
Proof.
  intros _ Hc. destruct (cell_has_neighbours cell Hc) as [nb Hnb].
  exists nb, (interactions_of arrows nb).
  split; [assumption|].
  split; [now apply computeInteraction_row|].
  intros c Hbit.
  assert (Hc0 : 0 <= c).
  { destruct (Z.lt_ge_cases c 0) as [Hneg|]; [|assumption].
    rewrite Z.testbit_neg_r in Hbit by assumption. discriminate. }
  rewrite (computeInteraction_testbit arrows cell c nb Hnb Hc0) in Hbit.
  apply any_hit_In in Hbit. split; [assumption|].
  apply in_map_iff in Hbit as [[y d] [Hy Hin]]. simpl in Hy. subst y.
  eapply listed_cells_adjacent; eassumption.
Qed.

Lemma interaction_bits_are_neighbours_witness :
  exists nb v,
    py_index NEIGHBOURS 3 = Some nb
    /\ computeInteraction 255 3 = Some v
    /\ forall c, Z.testbit v c = true ->
         In c (map fst nb) /\ Grid.adjacent 3 c = true.
Proof.
  apply (interaction_bits_are_neighbours 255 3); lia.
Defined.

Lemma any_hit_orb (a b c : Z) (nb : list (Z * Z)) :
  any_hit (Z.lor a b) c nb = any_hit a c nb || any_hit b c nb.
Proof.
  unfold any_hit. induction nb as [|e nb IH]; simpl; [reflexivity|].
  rewrite IH. unfold hit. rewrite Z.land_lor_distr_l.
  destruct (Z.eqb_spec (Z.land a (snd e)) 0) as [Ha|Ha];
    destruct (Z.eqb_spec (Z.land b (snd e)) 0) as [Hb|Hb];
    destruct (Z.eqb_spec (Z.lor (Z.land a (snd e)) (Z.land b (snd e))) 0)
      as [Hab|Hab];
    try (apply Z.lor_eq_0_iff in Hab; destruct Hab; contradiction);
    try (exfalso; apply Hab; apply Z.lor_eq_0_iff; now split);
    destruct (fst e =? c), (existsb _ nb), (existsb _ nb); reflexivity.
Qed.

Lemma land_absorb (x y : Z) : Z.land x (Z.lor x y) = x.
Proof.
  apply Z.bits_inj'. intros n _. rewrite Z.land_spec, Z.lor_spec.
  now destruct (Z.testbit x n), (Z.testbit y n).
Qed.

Lemma lor_of_subset (x y : Z) : Z.land x y = x -> Z.lor x y = y.
Proof.
  intros H. apply Z.bits_inj'. intros n _. rewrite Z.lor_spec.
  apply (f_equal (fun z => Z.testbit z n)) in H. rewrite Z.land_spec in H.
  now destruct (Z.testbit x n), (Z.testbit y n).
Qed.

Lemma interactions_lor (a b : Z) (nb : list (Z * Z)) :
  cells_nonneg nb -> NoDup (map fst nb) ->
  interactions_of (Z.lor a b) nb
  = Z.lor (interactions_of a nb) (interactions_of b nb).
Proof.
  intros Hnn Hnd. apply Z.bits_inj'. intros c Hc.
  rewrite Z.lor_spec, !interactions_testbit by assumption.
  apply any_hit_orb.
Qed.

Lemma interactions_zero (nb : list (Z * Z)) : interactions_of 0 nb = 0.
Proof.
  unfold interactions_of. induction nb as [|[n ab] nb IH]; simpl; [reflexivity|assumption].
Qed.

(** C9: with no arrow set the mask is 0 on every cell. *)
Theorem no_arrows_no_interactions (cell : Z) :
  0 <= cell <= 15 -> computeInteraction 0 cell = Some 0.
Proof.
  intros Hc. destruct (cell_has_neighbours cell Hc) as [nb Hnb].
  rewrite (computeInteraction_row 0 cell nb Hnb).
  now rewrite interactions_zero.
Qed.

Lemma no_arrows_no_interactions_witness : computeInteraction 0 10 = Some 0.
Proof.
  apply (no_arrows_no_interactions 10). lia.
Defined.

(** C10: on every cell the mask of the union of two arrow bytes is the union
    of their masks; in particular an arrow byte contained in another has its
    mask contained in the other's. *)
Theorem interaction_or_homomorphism (cell a b : Z) :
  0 <= cell <= 15 -> 0 <= a <= 255 -> 0 <= b <= 255 ->
  exists va vb,
    computeInteraction a cell = Some va
    /\ computeInteraction b cell = Some vb
    /\ computeInteraction (Z.lor a b) cell = Some (Z.lor va vb)
    /\ (Z.land a b = a -> Z.land va vb = va).
Proof.
  intros Hc _ _. destruct (cell_has_neighbours cell Hc) as [nb Hnb].
  pose proof (row_nonneg cell nb Hnb) as Hnn.
  pose proof (row_nodup cell nb Hnb) as Hnd.
  exists (interactions_of a nb), (interactions_of b nb).
  rewrite !(computeInteraction_row _ cell nb Hnb).
  repeat split.
  - f_equal. now apply interactions_lor.
  - intros Hsub. apply lor_of_subset in Hsub.
    rewrite <- Hsub. rewrite interactions_lor by assumption.
    apply land_absorb.
Qed.

Lemma interaction_or_homomorphism_witness :
  exists va vb,
    computeInteraction 5 6 = Some va
    /\ computeInteraction 133 6 = Some vb
    /\ computeInteraction (Z.lor 5 133) 6 = Some (Z.lor va vb)
    /\ (Z.land 5 133 = 5 -> Z.land va vb = va).
Proof.
  apply (interaction_or_homomorphism 6 5 133); lia.
Defined.

Lemma bits_of_spec (cells : list Z) (c : Z) :
  Forall (fun n => 0 <= n) cells ->
  Z.testbit (bits_of cells) c = true <-> In c cells.
Proof.
  intros Hnn. destruct (Z.lt_ge_cases c 0) as [Hneg|Hc].
  - rewrite Z.testbit_neg_r by assumption. split; [discriminate|].
    intros Hin. apply (proj1 (Forall_forall _ _) Hnn) in Hin. lia.
  - induction Hnn as [|n cells Hn Hcells IH]; simpl.
    + rewrite Z.bits_0. split; [discriminate|contradiction].
    + rewrite Z.lor_spec, testbit_one_shl by assumption.
      rewrite orb_true_iff, Z.eqb_eq. tauto.
Qed.

(** C6: with all eight arrows set, the mask at interior cell 5 has exactly
    the bits 0, 1, 2, 4, 6, 8, 9, 10 and the mask at corner cell 0 has exactly
    the bits 1, 4, 5. *)
Theorem all_arrows_masks :
  exists v5 v0,
    computeInteraction 0xFF 5 = Some v5
    /\ (forall c, Z.testbit v5 c = true <-> In c [0; 1; 2; 4; 6; 8; 9; 10])
    /\ computeInteraction 0xFF 0 = Some v0
    /\ (forall c, Z.testbit v0 c = true <-> In c [1; 4; 5]).
Proof.
  exists (bits_of [0; 1; 2; 4; 6; 8; 9; 10]), (bits_of [1; 4; 5]).
  split; [reflexivity|]. split; [|split; [reflexivity|]];
    intros c; apply bits_of_spec; repeat constructor; lia.
Qed.

(** C7: with only the L (west) arrow set, the mask at cell 1 has bit 0 set
    and no other bit. *)
Theorem west_arrow_at_cell_1 :
  exists v,
    computeInteraction L 1 = Some v
    /\ v = 1
    /\ forall c, Z.testbit v c = true <-> c = 0.
Proof.
  exists (bits_of [0]). split; [reflexivity|]. split; [reflexivity|].
  intros c. rewrite bits_of_spec by (repeat constructor; lia).
  simpl. intuition.
Qed.

(** ** The printed table *)

Section Printing.

Import Emit.

Lemma for_appends {A : Type} (f : A -> list string) (body : A -> M unit)
    (xs : list A) :
  (forall x out, In x xs -> body x out = Some (tt, out ++ f x)) ->
  forall out, for_ xs body out = Some (tt, out ++ flat_map f xs).
Proof.
  induction xs as [|x xs IH]; intros Hbody out; simpl.
  - unfold ret. now rewrite app_nil_r.
  - unfold bind. rewrite Hbody by now left.
    rewrite IH by (intros; apply Hbody; now right).
    now rewrite app_assoc.
Qed.

Lemma emit_cell_out (arrows cell : Z) (out : list string) :
  In cell (range 0 16) ->
  emit_cell arrows cell out = Some (tt, out ++ cell_lines arrows cell).
Proof.
  intros Hin. cbv in Hin.
  repeat (destruct Hin as [<- | Hin]; [reflexivity|]). contradiction.
Qed.

Lemma cell_lines_row (arrows : Z) :
  flat_map (cell_lines arrows) (range 0 16)
  = map format_interactions (row_masks arrows).
Proof. reflexivity. Qed.

Lemma emit_row_out (arrows : Z) (out : list string) :
  emit_row arrows out = Some (tt, out ++ row_lines arrows).
Proof.
  unfold emit_row, bind, print.
  rewrite (for_appends (cell_lines arrows))
    by (intros; now apply emit_cell_out).
  rewrite cell_lines_row. unfold row_lines.
  now rewrite <- !app_assoc.
Qed.

Lemma main_out : emitTable = Some expected_output.
Proof.
  unfold emitTable, main, bind, print.
  rewrite (for_appends row_lines) by (intros; apply emit_row_out).
  unfold expected_output, option_map, snd.
  now rewrite app_nil_l, <- !app_assoc.
Qed.

(** *** Masks fit in sixteen bits *)

Lemma NEIGHBOURS_on_board :
  Forall (Forall (fun e : Z * Z => 0 <= fst e <= 15)) NEIGHBOURS.
Proof.
  unfold NEIGHBOURS.
  repeat (apply Forall_cons; [repeat constructor; simpl; lia|]).
  apply Forall_nil.
Qed.

Lemma any_hit_off_board (arrows c : Z) (nb : list (Z * Z)) :
  Forall (fun e : Z * Z => 0 <= fst e <= 15) nb -> 16 <= c ->
  any_hit arrows c nb = false.
Proof.
  intros Hnb Hc. unfold any_hit.
  induction Hnb as [|e nb He Hnb IH]; simpl; [reflexivity|].
  rewrite IH, orb_false_r. unfold hit.
  destruct (Z.eqb_spec (fst e) c); [lia|reflexivity].
Qed.

Lemma small_of_bits (v : Z) :
  (forall c, 16 <= c -> Z.testbit v c = false) -> 0 <= v < 65536.
Proof.
  intros Hbits.
  assert (Hv : v = v mod 2 ^ 16).
  { apply Z.bits_inj'. intros n Hn.
    destruct (Z.lt_ge_cases n 16) as [Hlo|Hhi].
    - now rewrite Z.mod_pow2_bits_low.
    - rewrite Z.mod_pow2_bits_high by lia. now apply Hbits. }
  rewrite Hv. change 65536 with (2 ^ 16). apply Z.mod_pos_bound. lia.
Qed.

Lemma row_masks_small (arrows : Z) :
  Forall (fun v => 0 <= v < 65536) (row_masks arrows).
Proof.
  unfold row_masks. apply Forall_map, Forall_forall. intros nb Hnb.
  apply small_of_bits. intros c Hc.
  rewrite interactions_testbit.
  - apply any_hit_off_board; [|assumption].
    exact (proj1 (Forall_forall _ _) NEIGHBOURS_on_board _ Hnb).
  - exact (proj1 (Forall_forall _ _) NEIGHBOURS_nonneg _ Hnb).
  - exact (proj1 (Forall_forall _ _) NEIGHBOURS_nodup _ Hnb).
  - lia.
Qed.

(** *** Literals read back to the masks they print *)

Local Arguments Z.mul : simpl never.
Local Arguments Z.add : simpl never.

Lemma read_bits_nibble (n acc : Z) (rest : string) :
  0 <= n <= 15 ->
  read_bits (format_04b n ++ rest) acc = read_bits rest (16 * acc + n).
Proof.
  intros Hn. each_cell n; simpl; f_equal; lia.
Qed.

Lemma nibble_range (v k : Z) : 0 <= Z.land (Z.shiftr v k) 15 <= 15.
Proof.
  change 15 with (Z.ones 4) at 1 2. rewrite Z.land_ones by lia.
  pose proof (Z.mod_pos_bound (Z.shiftr v k) (2 ^ 4) eq_refl). lia.
Qed.

Lemma nibbles_sum (v : Z) :
  0 <= v < 65536 ->
  16 * (16 * (16 * (16 * 0 + Z.land (Z.shiftr v 12) 15)
              + Z.land (Z.shiftr v 8) 15)
        + Z.land (Z.shiftr v 4) 15)
  + Z.land (Z.shiftr v 0) 15 = v.
Proof.
  intros Hv. change 15 with (Z.ones 4).
  rewrite !Z.land_ones, !Z.shiftr_div_pow2 by lia.
  change (2 ^ 12) with 4096. change (2 ^ 8) with 256.
  change (2 ^ 4) with 16. change (2 ^ 0) with 1.
  rewrite Z.div_1_r.
  Z.div_mod_to_equations. lia.
Qed.

Lemma read_entry_format (v : Z) :
  0 <= v < 65536 -> read_entry (format_interactions v) = Some v.
Proof.
  intros Hv. unfold format_interactions. simpl.
  rewrite read_bits_nibble by apply nibble_range. simpl.
  rewrite read_bits_nibble by apply nibble_range. simpl.
  rewrite read_bits_nibble by apply nibble_range. simpl.
  rewrite read_bits_nibble by apply nibble_range. simpl.
  f_equal. now apply nibbles_sum.
Qed.

(** *** Reading whole rows and the whole array *)

Lemma literal_is_no_comment (s : string) :
  String.prefix "//" (String "0" s) = false.
Proof.
  simpl. destruct (ascii_dec "/" "0"); [discriminate|reflexivity].
Qed.

Lemma read_rows_entries (vs : list Z) (rest : list string) :
  Forall (fun v => 0 <= v < 65536) vs ->
  forall cur done,
    read_rows (map format_interactions vs ++ rest) (Some cur) done
    = read_rows rest (Some (cur ++ vs)) done.
Proof.
  induction 1 as [|v vs Hv Hvs IH]; intros cur done.
  - now rewrite app_nil_r.
  - change (map format_interactions (v :: vs) ++ rest)
      with (format_interactions v :: (map format_interactions vs ++ rest)).
    pose proof (read_entry_format v Hv) as Hread.
    assert (Hshape : exists s, format_interactions v = String "0" s)
      by (eexists; reflexivity).
    destruct Hshape as [s Hs]. rewrite Hs in *.
    cbn [read_rows]. rewrite literal_is_no_comment.
    cbn [String.eqb Ascii.eqb Bool.eqb].
    rewrite Hread, IH. now rewrite <- app_assoc.
Qed.

Lemma read_rows_comment (line : string) (rest : list string)
    (cur : option (list Z)) (done : list (list Z)) :
  String.prefix "//" line = true ->
  read_rows (line :: rest) cur done = read_rows rest cur done.
Proof.
  intros Hp. cbn [read_rows]. now rewrite Hp.
Qed.

Lemma read_rows_open (rest : list string) (done : list (list Z)) :
  read_rows ("["%string :: rest) None done = read_rows rest (Some []) done.
Proof. reflexivity. Qed.

Lemma read_rows_close (rest : list string) (r : list Z)
    (done : list (list Z)) :
  read_rows ("],"%string :: rest) (Some r) done
  = read_rows rest None (done ++ [r]).
Proof. reflexivity. Qed.

Lemma read_rows_end (done : list (list Z)) :
  read_rows ["];"%string] None done = Some done.
Proof. reflexivity. Qed.

Lemma format_arrows_is_comment (arrows : Z) :
  String.prefix "//" (format_arrows arrows) = true.
Proof.
  unfold format_arrows. simpl.
  destruct (ascii_dec "/" "/"); [reflexivity|congruence].
Qed.

Lemma row_lines_cons (arrows : Z) (rest : list string) :
  row_lines arrows ++ rest
  = format_arrows arrows :: "["%string
      :: (map format_interactions (row_masks arrows)
            ++ "],"%string :: rest).
Proof.
  unfold row_lines. now rewrite <- !app_assoc.
Qed.

Lemma read_rows_row (arrows : Z) (rest : list string)
    (done : list (list Z)) :
  read_rows (row_lines arrows ++ rest) None done
  = read_rows rest None (done ++ [row_masks arrows]).
Proof.
  rewrite row_lines_cons.
  rewrite read_rows_comment by apply format_arrows_is_comment.
  rewrite read_rows_open.
  rewrite read_rows_entries by apply row_masks_small.
  apply read_rows_close.
Qed.

Lemma read_rows_all (xs : list Z) :
  forall done,
    read_rows (flat_map row_lines xs ++ ["];"%string]) None done
    = Some (done ++ map row_masks xs).
Proof.
  induction xs as [|x xs IH]; intros done.
  - cbn [flat_map map app]. rewrite read_rows_end. now rewrite app_nil_r.
  - cbn [flat_map map].
    rewrite <- (app_assoc (row_lines x)), read_rows_row, IH.
    now rewrite <- app_assoc.
Qed.

Lemma read_table_out :
  read_table expected_output = Some (map row_masks (range 0 256)).
Proof.
  unfold expected_output, read_table.
  cbn [app]. rewrite String.eqb_refl.
  now rewrite read_rows_all.
Qed.

(** *** Positions in the output and in the table *)

Lemma nth_error_blocks {A B : Type} (f : A -> list B) (n : nat)
    (xs : list A) :
  (forall y, List.length (f y) = n) ->
  forall k i x,
    nth_error xs k = Some x -> (i < n)%nat ->
    nth_error (flat_map f xs) (k * n + i) = nth_error (f x) i.
Proof.
  intros Hlen. induction xs as [|y xs IH]; intros k i x Hk Hi.
  - destruct k; discriminate.
  - destruct k as [|k]; simpl in Hk |- *.
    + injection Hk as ->. apply nth_error_app1. now rewrite Hlen.
    + rewrite nth_error_app2 by (rewrite Hlen; lia).
      rewrite Hlen.
      replace (n + k * n + i - n)%nat with (k * n + i)%nat by lia.
      now apply IH.
Qed.

Lemma nth_error_range (lo hi k : Z) :
  0 <= k < hi - lo ->
  nth_error (range lo hi) (Z.to_nat k) = Some (lo + k).
Proof.
  intros Hk. unfold range.
  rewrite nth_error_map.
  rewrite (nth_error_nth' _ 0%nat) by (rewrite length_seq; lia).
  rewrite seq_nth by lia. simpl. f_equal. lia.
Qed.

Lemma row_lines_length (arrows : Z) : List.length (row_lines arrows) = 19%nat.
Proof. reflexivity. Qed.

Lemma expected_output_length : List.length expected_output = 4867%nat.
Proof.
  unfold expected_output. rewrite !length_app.
  rewrite (flat_map_constant_length (c := 19%nat))
    by (intros; apply row_lines_length).
  reflexivity.
Qed.

Lemma row_cell (arrows cell : Z) :
  0 <= cell <= 15 ->
  exists v,
    computeInteraction arrows cell = Some v
    /\ py_index (row_masks arrows) cell = Some v
    /\ nth_error (row_lines arrows) (2 + Z.to_nat cell)
       = Some (format_interactions v).
Proof.
  intros Hc. each_cell cell; eexists; repeat split; reflexivity.
Qed.

Lemma expected_output_row (arrows : Z) (i : nat) :
  0 <= arrows <= 255 -> (i < 19)%nat ->
  nth_error expected_output (2 + (Z.to_nat arrows * 19 + i))
  = nth_error (row_lines arrows) i.
Proof.
  intros Ha Hi. unfold expected_output.
  change (nth_error (flat_map row_lines (range 0 256) ++ ["];"%string])
            (Z.to_nat arrows * 19 + i)
          = nth_error (row_lines arrows) i).
  rewrite nth_error_app1.
  - apply nth_error_blocks; [apply row_lines_length| |assumption].
    now rewrite nth_error_range by lia.
  - rewrite (flat_map_constant_length (c := 19%nat))
      by (intros; apply row_lines_length).
    change (List.length (range 0 256)) with 256%nat. lia.
Qed.

End Printing.

(** C8: the generator prints 256 rows of 16 literals; read back as an array,
    the rows are in ascending arrow-byte order and the columns in ascending
    cell order, and entry [arrows][cell] is the mask computed for that pair.
    In the output itself the row of [arrows] starts at print number
    2 + 19 * arrows with its comment, and its literal for [cell] is two
    prints further plus [cell]. *)
Theorem emitted_table_indexing (arrows cell : Z) :
  0 <= arrows <= 255 -> 0 <= cell <= 15 ->
  exists out table row v,
    Emit.emitTable = Some out
    /\ List.length out = 4867%nat
    /\ Emit.read_table out = Some table
    /\ List.length table = 256%nat
    /\ Forall (fun r => List.length r = 16%nat) table
    /\ nth_error out (Z.to_nat (2 + 19 * arrows))
       = Some (Emit.format_arrows arrows)
    /\ nth_error out (Z.to_nat (2 + 19 * arrows + 2 + cell))
       = Some (Emit.format_interactions v)
    /\ py_index table arrows = Some row
    /\ py_index row cell = Some v
    /\ computeInteraction arrows cell = Some v.
Proof.
  intros Ha Hc.
  destruct (row_cell arrows cell Hc) as [v [Hv [Hidx Hline]]].
  exists Emit.expected_output, (map Emit.row_masks (range 0 256)),
    (Emit.row_masks arrows), v.
  split; [apply main_out|].
  split; [apply expected_output_length|].
  split; [apply read_table_out|].
  split; [now rewrite length_map|].
  split; [apply Forall_map, Forall_forall; intros; reflexivity|].
  split.
  { replace (Z.to_nat (2 + 19 * arrows))
      with (2 + (Z.to_nat arrows * 19 + 0))%nat by lia.
    now rewrite expected_output_row by lia. }
  split.
  { replace (Z.to_nat (2 + 19 * arrows + 2 + cell))
      with (2 + (Z.to_nat arrows * 19 + (2 + Z.to_nat cell)))%nat by lia.
    now rewrite expected_output_row by lia. }
  split.
  { rewrite py_index_nonneg, nth_error_map by lia.
    now rewrite nth_error_range by lia. }
  split; assumption.
Qed.

Lemma emitted_table_indexing_witness :
  exists out table row v,
    Emit.emitTable = Some out
    /\ List.length out = 4867%nat
    /\ Emit.read_table out = Some table
    /\ List.length table = 256%nat
    /\ Forall (fun r => List.length r = 16%nat) table
    /\ nth_error out (Z.to_nat (2 + 19 * 37))
       = Some (Emit.format_arrows 37)
    /\ nth_error out (Z.to_nat (2 + 19 * 37 + 2 + 9))
       = Some (Emit.format_interactions v)
    /\ py_index table 37 = Some row
    /\ py_index row 9 = Some v
    /\ computeInteraction 37 9 = Some v.
Proof.
  apply (emitted_table_indexing 37 9); lia.
Defined.

(** ** Further properties of the interaction table *)

Ltac find_entry := simpl; repeat (first [left; reflexivity | right]).

Ltac split_arrow d :=
  repeat match goal with
         | H : context [d =? ?a] |- _ =>
             destruct (Z.eqb_spec d a); [subst d|]
         end.

(** A pair is listed for a cell exactly when one step from the cell along the
    arrow lands on the listed neighbour. *)
Lemma listed_iff_step (cell y d : Z) (nb : list (Z * Z)) :
  0 <= cell <= 15 ->
  py_index NEIGHBOURS cell = Some nb ->
  In (y, d) nb <-> Grid.step cell d = Some y.
Proof.
  intros Hc Hidx. split.
  - intros Hin. each_cell cell; open_row Hidx; each_entry Hin; reflexivity.
  - intros Hstep. unfold Grid.step, Grid.delta in Hstep.
    each_cell cell; open_row Hidx; split_arrow d;
      cbv in Hstep; try discriminate; injection Hstep as <-; find_entry.
Qed.

Lemma mask_in_row (arrows cell v : Z) :
  computeInteraction arrows cell = Some v -> In v (Emit.row_masks arrows).
Proof.
  unfold computeInteraction.
  destruct (py_index NEIGHBOURS cell) as [nb|] eqn:Hidx; [|discriminate].
  simpl. intros [= <-]. apply py_index_In in Hidx.
  exact (in_map (interactions_of arrows) NEIGHBOURS nb Hidx).
Qed.

Lemma high_bits_clear (v c : Z) :
  0 <= v < 65536 -> 16 <= c -> Z.testbit v c = false.
Proof.
  intros Hv Hc. rewrite <- (Z.mod_small v (2 ^ 16)) by (change (2 ^ 16) with 65536; lia).
  apply Z.mod_pow2_bits_high. lia.
Qed.

(** Whatever the arrow byte and whichever (valid) index selects the row, the
    mask fits the [u16] element type of the printed array. *)
Theorem mask_fits_u16 (arrows cell v : Z) :
  computeInteraction arrows cell = Some v -> 0 <= v < 65536.
Proof.
  intros Hv. apply mask_in_row in Hv.
  exact (proj1 (Forall_forall _ _) (row_masks_small arrows) _ Hv).
Qed.

Lemma mask_fits_u16_witness : 0 <= 60128 < 65536.
Proof.
  apply (mask_fits_u16 255 10 60128). reflexivity.
Defined.

(** The adjacency table is exact: (y, d) is listed for a board cell if and
    only if one step from that cell along arrow d stays on the board and
    lands on y.  No neighbour is missing and none is spurious. *)
Theorem neighbours_exact (cell y d : Z) (nb : list (Z * Z)) :
  0 <= cell <= 15 ->
  py_index NEIGHBOURS cell = Some nb ->
  In (y, d) nb <-> Grid.step cell d = Some y.
Proof.
  apply listed_iff_step.
Qed.

Lemma neighbours_exact_witness :
  In (12, DL) [(5, U); (6, UR); (10, R); (14, DR); (13, D); (12, DL); (8, L); (4, UL)]
  <-> Grid.step 9 DL = Some 12.
Proof.
  apply (neighbours_exact 9 12 DL); [lia|reflexivity].
Defined.

(** Bit c of the mask of (arrows, cell) is set if and only if some arrow of
    the byte, followed for one step from the cell, lands on cell c. *)
Theorem mask_bit_iff_arrow_points (arrows cell c : Z) :
  0 <= cell <= 15 ->
  exists v,
    computeInteraction arrows cell = Some v
    /\ (Z.testbit v c = true
        <-> exists d, Z.land arrows d <> 0 /\ Grid.step cell d = Some c).
Proof.
  intros Hc. destruct (cell_has_neighbours cell Hc) as [nb Hnb].
  exists (interactions_of arrows nb).
  split; [now apply computeInteraction_row|]. split.
  - intros Hbit.
    assert (Hc0 : 0 <= c).
    { destruct (Z.lt_ge_cases c 0) as [Hneg|]; [|assumption].
      rewrite Z.testbit_neg_r in Hbit by assumption. discriminate. }
    rewrite (computeInteraction_testbit arrows cell c nb Hnb Hc0) in Hbit.
    apply existsb_exists in Hbit as [[y d] [Hin Hhit]].
    unfold hit in Hhit. simpl in Hhit.
    apply andb_prop in Hhit as [Hy Hd].
    apply Z.eqb_eq in Hy. subst y.
    exists d. split.
    + apply negb_true_iff, Z.eqb_neq in Hd. assumption.
    + now apply (listed_iff_step cell c d nb).
  - intros [d [Hd Hstep]].
    apply (listed_iff_step cell c d nb Hc Hnb) in Hstep.
    assert (Hc0 : 0 <= c).
    { exact (proj1 (Forall_forall _ _) (row_nonneg cell nb Hnb) _ Hstep). }
    rewrite (computeInteraction_testbit arrows cell c nb Hnb Hc0).
    apply existsb_exists. exists (c, d). split; [assumption|].
    unfold hit. simpl. rewrite Z.eqb_refl. simpl.
    now apply negb_true_iff, Z.eqb_neq.
Qed.

Lemma mask_bit_iff_arrow_points_witness :
  exists v,
    computeInteraction 40 6 = Some v
    /\ (Z.testbit v 7 = true
        <-> exists d, Z.land 40 d <> 0 /\ Grid.step 6 d = Some 7).
Proof.
  apply (mask_bit_iff_arrow_points 40 6 7). lia.
Defined.

(** With all eight arrows set, the mask of a board cell is exactly the set of
    cells adjacent to it on the board: bit c is set iff c is a distinct board
    cell at most one row and one column away. *)
Theorem all_arrows_mask_is_adjacency (cell c : Z) :
  0 <= cell <= 15 ->
  exists v,
    computeInteraction 255 cell = Some v
    /\ Z.testbit v c = Grid.adjacent cell c.
Proof.
  intros Hcell.
  destruct (cell_has_neighbours cell Hcell) as [nb Hnb].
  exists (interactions_of 255 nb).
  pose proof (computeInteraction_row 255 cell nb Hnb) as Hv.
  split; [assumption|].
  destruct (Z.lt_ge_cases c 0) as [Hneg|Hc0].
  - rewrite Z.testbit_neg_r by assumption.
    unfold Grid.adjacent, Grid.on_board.
    destruct (Z.leb_spec 0 c); [lia|].
    now rewrite andb_false_r.
  - destruct (Z.lt_ge_cases c 16) as [Hlo|Hhi].
    + clear Hv. each_cell cell; open_row Hnb; each_cell c; reflexivity.
    + rewrite (high_bits_clear _ c (mask_fits_u16 _ _ _ Hv) Hhi).
      unfold Grid.adjacent, Grid.on_board.
      destruct (Z.leb_spec c 15); [lia|].
      now rewrite !andb_false_r.
Qed.

Lemma all_arrows_mask_is_adjacency_witness :
  exists v,
    computeInteraction 255 7 = Some v
    /\ Z.testbit v 10 = Grid.adjacent 7 10.
Proof.
  apply (all_arrows_mask_is_adjacency 7 10). lia.
Defined.

(** A piece never interacts with the cell it stands on: the bit of the
    subject cell is clear in its own mask, for every arrow byte. *)
Theorem mask_excludes_own_cell (arrows cell v : Z) :
  0 <= cell <= 15 ->
  computeInteraction arrows cell = Some v ->
  Z.testbit v cell = false.
Proof.
  intros Hc Hv. destruct (cell_has_neighbours cell Hc) as [nb Hnb].
  rewrite (computeInteraction_row arrows cell nb Hnb) in Hv.
  injection Hv as <-.
  rewrite (computeInteraction_testbit arrows cell cell nb Hnb) by lia.
  destruct (any_hit arrows cell nb) eqn:Hhit; [|reflexivity].
  apply any_hit_In, in_map_iff in Hhit as [[y d] [Hy Hin]].
  simpl in Hy. subst y.
  pose proof (listed_cells_adjacent cell cell d nb Hc Hnb Hin) as Hadj.
  unfold Grid.adjacent in Hadj. rewrite Z.eqb_refl in Hadj.
  simpl in Hadj. now rewrite andb_false_r in Hadj.
Qed.

Lemma mask_excludes_own_cell_witness : Z.testbit 1879 5 = false.
Proof.
  apply (mask_excludes_own_cell 255 5 1879); [lia|reflexivity].
Defined.

(** Facing is mutual in the table: a piece on cell x whose only arrow is d
    interacts with cell y exactly when a piece on y whose only arrow is the
    opposite of d interacts with x. *)
Theorem single_arrow_facing_is_mutual (x y d : Z) :
  0 <= x <= 15 -> 0 <= y <= 15 ->
  In d [U; UR; R; DR; D; DL; L; UL] ->
  exists vx vy,
    computeInteraction d x = Some vx
    /\ computeInteraction (Grid.opposite d) y = Some vy
    /\ Z.testbit vx y = Z.testbit vy x.
Proof.
  intros Hx Hy Hd. simpl in Hd.
  repeat (destruct Hd as [<- | Hd]); try contradiction;
    each_cell x; each_cell y;
    (eexists; eexists; split; [reflexivity|split; reflexivity]).
Qed.

Lemma single_arrow_facing_is_mutual_witness :
  exists vx vy,
    computeInteraction DR 5 = Some vx
    /\ computeInteraction (Grid.opposite DR) 10 = Some vy
    /\ Z.testbit vx 10 = Z.testbit vy 5.
Proof.
  apply (single_arrow_facing_is_mutual 5 10 DR); [lia|lia|simpl; auto].
Defined.

(** ** Further properties of the printed lines *)

Lemma string_length_app (s t : string) :
  String.length (s ++ t) = (String.length s + String.length t)%nat.
Proof.
  induction s as [|c s IH]; simpl; [reflexivity|now rewrite IH].
Qed.

Lemma format_04b_length (n : Z) :
  0 <= n <= 15 -> String.length (Emit.format_04b n) = 4%nat.
Proof.
  intros Hn. each_cell n; reflexivity.
Qed.

Lemma low_nibble_range (v : Z) : 0 <= Z.land v 15 <= 15.
Proof.
  change 15 with (Z.ones 4) at 1 2. rewrite Z.land_ones by lia.
  pose proof (Z.mod_pos_bound v (2 ^ 4) eq_refl). lia.
Qed.

Lemma high_nibble_range (arrows : Z) :
  0 <= arrows <= 255 -> 0 <= Z.shiftr arrows 4 <= 15.
Proof.
  intros Ha. rewrite Z.shiftr_div_pow2 by lia. change (2 ^ 4) with 16.
  split; [apply Z.div_pos; lia|].
  apply Z.lt_succ_r. apply Z.div_lt_upper_bound; lia.
Qed.

(** Every printed line has a fixed width: the comment of an arrow byte is 20
    characters long and the literal of a mask 22, so each nibble is printed
    with exactly four binary digits. *)
Theorem printed_lines_fixed_width (arrows v : Z) :
  0 <= arrows <= 255 ->
  String.length (Emit.format_arrows arrows) = 20%nat
  /\ String.length (Emit.format_interactions v) = 22%nat.
Proof.
  intros Ha. unfold Emit.format_arrows, Emit.format_interactions.
  rewrite !string_length_app.
  rewrite (format_04b_length (Z.shiftr arrows 4)) by now apply high_nibble_range.
  rewrite !format_04b_length by apply low_nibble_range.
  split; reflexivity.
Qed.

Lemma printed_lines_fixed_width_witness :
  String.length (Emit.format_arrows 165) = 20%nat
  /\ String.length (Emit.format_interactions 60128) = 22%nat.
Proof.
  apply (printed_lines_fixed_width 165 60128). lia.
Defined.

(** A sixteen-bit mask is recovered from its printed literal, so two
    different masks are never printed alike. *)
Theorem literal_round_trip (v w : Z) :
  0 <= v < 65536 -> 0 <= w < 65536 ->
  Emit.read_entry (Emit.format_interactions v) = Some v
  /\ (Emit.format_interactions v = Emit.format_interactions w -> v = w).
Proof.
  intros Hv Hw. split; [now apply read_entry_format|].
  intros Heq.
  pose proof (read_entry_format v Hv) as Rv.
  pose proof (read_entry_format w Hw) as Rw.
  rewrite Heq in Rv. congruence.
Qed.

Lemma literal_round_trip_witness :
  Emit.read_entry (Emit.format_interactions 1879) = Some 1879
  /\ (Emit.format_interactions 1879 = Emit.format_interactions 50 -> 1879 = 50).
Proof.
  apply (literal_round_trip 1879 50); lia.
Defined.

(** * The benchmark-delta reporter *)

Section Reporter.

Import Iai.

Variable strip : string -> string.
Variable split : string -> list string.
Variable int : string -> option Z.

Local Open Scope string_scope.

Lemma empty_line_is_ignored (st : state) :
  parse_line split int st "" = inr st.
Proof. reflexivity. Qed.

Lemma read_blank_lines (lines : list string) :
  Forall (fun l => strip l = "") lines ->
  forall st out,
    read_lines strip split int lines st out
    = ((out ++ map Echo lines)%list, inr st).
Proof.
  induction 1 as [|raw lines Hraw Hlines IH]; intros st out; simpl.
  - unfold ret. now rewrite app_nil_r.
  - unfold bind, emit, lift. rewrite Hraw, empty_line_is_ignored.
    rewrite IH. now rewrite <- app_assoc.
Qed.

Lemma read_lines_app (xs ys : list string) :
  forall st out,
    read_lines strip split int (xs ++ ys) st out
    = match read_lines strip split int xs st out with
      | (out', inr st') => read_lines strip split int ys st' out'
      | (out', inl e) => (out', inl e)
      end.
Proof.
  induction xs as [|x xs IH]; intros st out; simpl; [reflexivity|].
  unfold bind, emit, lift.
  destruct (parse_line split int st (strip x)); [reflexivity|apply IH].
Qed.

(** What reading does to the output: the lines are echoed in order up to and
    including the one on which an exception is raised, if any. *)
Lemma read_lines_echo (lines : list string) :
  forall st out,
    (exists st',
        read_lines strip split int lines st out
        = ((out ++ map Echo lines)%list, inr st'))
    \/ (exists n e,
           (1 <= n <= List.length lines)%nat
           /\ read_lines strip split int lines st out
              = ((out ++ map Echo (firstn n lines))%list, inl e)).
Proof.
  induction lines as [|raw lines IH]; intros st out; simpl.
  - left. exists st. unfold ret. now rewrite app_nil_r.
  - unfold bind, emit, lift.
    destruct (parse_line split int st (strip raw)) as [e|st1].
    + right. exists 1%nat, e. split; [lia|reflexivity].
    + destruct (IH st1 (out ++ [Echo raw])%list) as [[st' H]|[n [e [Hn H]]]].
      * left. exists st'. rewrite H. now rewrite <- app_assoc.
      * right. exists (S n), e. split; [lia|].
        rewrite H. simpl. now rewrite <- app_assoc.
Qed.

Lemma report_one_prints (results : dict (dict Z)) (first : dict Z)
    (name : string) (out : list out_item) :
  exists tail r,
    report_one results first name out = ((out ++ tail)%list, r)
    /\ Forall is_print tail.
Proof.
  unfold report_one, bind, lift, emit.
  destruct (lookup results name) as [e|res].
  { exists [], (inl e). now rewrite app_nil_r. }
  repeat match goal with
         | |- context [difference ?a ?b ?k] =>
             destruct (difference a b k);
             [rewrite <- ?app_assoc; simpl; eexists; eexists;
              split; [reflexivity|repeat constructor]|]
         end.
  rewrite <- ?app_assoc; simpl. eexists; eexists.
  split; [reflexivity|repeat constructor].
Qed.

Lemma for_report_prints (results : dict (dict Z)) (first : dict Z)
    (names : list string) :
  forall out,
    exists tail r,
      for_ names (report_one results first) out = ((out ++ tail)%list, r)
      /\ Forall is_print tail.
Proof.
  induction names as [|name names IH]; intros out; simpl.
  - exists [], (inr tt). unfold ret. now rewrite app_nil_r.
  - unfold bind.
    destruct (report_one_prints results first name out) as [t1 [r1 [H1 P1]]].
    rewrite H1. destruct r1 as [e|[]].
    + exists t1, (inl e). now split.
    + destruct (IH (out ++ t1)%list) as [t2 [r2 [H2 P2]]].
      exists (t1 ++ t2)%list, r2. rewrite H2, <- app_assoc.
      split; [reflexivity|]. apply Forall_app. now split.
Qed.

Lemma report_prints (results : dict (dict Z)) (out : list out_item) :
  exists tail r,
    report results out = ((out ++ tail)%list, r) /\ Forall is_print tail.
Proof.
  unfold report. destruct (keys results) as [|first rest].
  { exists [], (inl ValueError). unfold raise. now rewrite app_nil_r. }
  unfold bind, lift, emit.
  destruct (lookup results first) as [e|first_res].
  { exists [], (inl e). now rewrite app_nil_r. }
  destruct (for_report_prints results first_res rest
              (out ++ [Print [Str "--- Deltas ---"]])%list)
    as [tail [r [H P]]].
  exists (Print [Str "--- Deltas ---"] :: tail), r.
  rewrite H, <- app_assoc. split; [reflexivity|].
  constructor; [exact I|assumption].
Qed.

(** Pass-through: whatever the input, either an exception is raised while
    line n is processed, and the output is exactly the first n input lines,
    or all input lines are echoed, unchanged and in order, before anything
    else is printed. *)
Theorem every_line_is_passed_through (lines : list string) :
  (exists n e,
      (1 <= n <= List.length lines)%nat
      /\ main strip split int lines = (map Echo (firstn n lines), inl e))
  \/ (exists tail r,
         main strip split int lines = ((map Echo lines ++ tail)%list, r)
         /\ Forall is_print tail).
Proof.
  unfold main, bind.
  destruct (read_lines_echo lines ([], None) []) as [[st H]|[n [e [Hn H]]]];
    rewrite H; simpl.
  - right. apply report_prints.
  - left. exists n, e. now split.
Qed.

(** Without a benchmark name in the input (every line blank once stripped,
    or no line at all) the run echoes the input and ends in [ValueError]: the
    unpacking of the first benchmark has nothing to unpack. *)
Theorem no_benchmark_is_an_error (lines : list string) :
  Forall (fun l => strip l = "") lines ->
  main strip split int lines = (map Echo lines, inl ValueError).
Proof.
  intros Hblank. unfold main, bind.
  now rewrite (read_blank_lines lines Hblank).
Qed.

(** *** A counter line ahead of every benchmark name *)



(** *** Well-formed input *)

Ltac prefix_clash :=
  match goal with
  | H : String.prefix _ ?s = true |- _ =>
      destruct s as [|? [|? ?]]; cbn [String.prefix] in H |- *;
      repeat match goal with
             | H' : context [ascii_dec ?x ?y] |- _ =>
                 destruct (ascii_dec x y); try discriminate; subst
             | |- context [ascii_dec ?x ?y] =>
                 destruct (ascii_dec x y); try discriminate; subst
             end;
      try reflexivity; try discriminate
  end.

Lemma parse_instructions (st : state) (line : string) :
  String.prefix "Instructions:" line = true ->
  parse_line split int st line = store split int st "instructions" 1 line.
Proof.
  intros H. unfold parse_line. now rewrite H.
Qed.

Lemma parse_l1 (st : state) (line : string) :
  String.prefix "L1 Accesses:" line = true ->
  parse_line split int st line = store split int st "l1-accesses" 2 line.
Proof.
  intros H. unfold parse_line.
  assert (H0 : String.prefix "Instructions:" line = false) by prefix_clash.
  now rewrite H0, H.
Qed.

Lemma parse_l2 (st : state) (line : string) :
  String.prefix "L2 Accesses:" line = true ->
  parse_line split int st line = store split int st "l2-accesses" 2 line.
Proof.
  intros H. unfold parse_line.
  assert (H0 : String.prefix "Instructions:" line = false) by prefix_clash.
  assert (H1 : String.prefix "L1 Accesses:" line = false) by prefix_clash.
  now rewrite H0, H1, H.
Qed.

Lemma parse_ram (st : state) (line : string) :
  String.prefix "RAM Accesses:" line = true ->
  parse_line split int st line = store split int st "ram-accesses" 2 line.
Proof.
  intros H. unfold parse_line.
  assert (H0 : String.prefix "Instructions:" line = false) by prefix_clash.
  assert (H1 : String.prefix "L1 Accesses:" line = false) by prefix_clash.
  assert (H2 : String.prefix "L2 Accesses:" line = false) by prefix_clash.
  now rewrite H0, H1, H2, H.
Qed.

Lemma parse_cycles (st : state) (line : string) :
  String.prefix "Estimated Cycles:" line = true ->
  parse_line split int st line
  = store split int st "estimated-cycles" 2 line.
Proof.
  intros H. unfold parse_line.
  assert (H0 : String.prefix "Instructions:" line = false) by prefix_clash.
  assert (H1 : String.prefix "L1 Accesses:" line = false) by prefix_clash.
  assert (H2 : String.prefix "L2 Accesses:" line = false) by prefix_clash.
  assert (H3 : String.prefix "RAM Accesses:" line = false) by prefix_clash.
  now rewrite H0, H1, H2, H3, H.
Qed.

Lemma parse_name (st : state) (line : string) :
  line <> "" -> is_metric line = false ->
  parse_line split int st line = inr (dict_set (fst st) line [], Some line).
Proof.
  intros Hne Hm. unfold is_metric in Hm. unfold parse_line.
  repeat (apply orb_false_iff in Hm as [Hm ?]).
  repeat match goal with H : String.prefix _ _ = false |- _ => rewrite H; clear H end.
  apply String.eqb_neq in Hne. now rewrite Hne.
Qed.

Lemma dict_get_new {V : Type} (d : dict V) (k : string) (v : V) :
  ~ In k (keys d) -> dict_get (d ++ [(k, v)])%list k = Some v.
Proof.
  induction d as [|[k' v'] d IH]; simpl; intros Hk.
  - now rewrite String.eqb_refl.
  - destruct (String.eqb_spec k' k) as [->|Hne]; [tauto|]. apply IH. tauto.
Qed.

Lemma dict_set_new {V : Type} (d : dict V) (k : string) (v : V) :
  ~ In k (keys d) -> dict_set d k v = (d ++ [(k, v)])%list.
Proof.
  induction d as [|[k' v'] d IH]; simpl; intros Hk; [reflexivity|].
  destruct (String.eqb_spec k' k) as [->|Hne]; [tauto|]. rewrite IH; tauto.
Qed.

Lemma dict_set_last {V : Type} (d : dict V) (k : string) (v v' : V) :
  ~ In k (keys d) ->
  dict_set (d ++ [(k, v)])%list k v' = (d ++ [(k, v')])%list.
Proof.
  induction d as [|[k0 v0] d IH]; simpl; intros Hk.
  - now rewrite String.eqb_refl.
  - destruct (String.eqb_spec k0 k) as [->|Hne]; [tauto|]. rewrite IH; tauto.
Qed.

Lemma store_current (results : dict (dict Z)) (name key line word : string)
    (inner : dict Z) (field : nat) (n : Z) :
  ~ In name (keys results) ->
  nth_error (split line) field = Some word ->
  int word = Some n ->
  store split int ((results ++ [(name, inner)])%list, Some name) key field line
  = inr ((results ++ [(name, dict_set inner key n)])%list, Some name).
Proof.
  intros Hnew Hword Hint. unfold store.
  now rewrite Hword, Hint, dict_get_new, dict_set_last.
Qed.

Lemma read_block (b : sample) (raws rest : list string)
    (results : dict (dict Z)) (curr : option string) (out : list out_item) :
  well_formed strip split int b raws ->
  ~ In (s_name b) (keys results) ->
  read_lines strip split int (raws ++ rest) (results, curr) out
  = read_lines strip split int rest
      ((results ++ [entry b])%list, Some (s_name b))
      (out ++ map Echo raws)%list.
Proof.
  intros (r0 & r1 & r2 & r3 & r4 & r5 & -> & Hname & Hne & Hnm
          & (P1 & w1 & W1 & N1) & (P2 & w2 & W2 & N2) & (P3 & w3 & W3 & N3)
          & (P4 & w4 & W4 & N4) & (P5 & w5 & W5 & N5)) Hnew.
  cbn [app read_lines]. unfold bind, emit, lift.
  rewrite Hname, (parse_name _ _ Hne Hnm). cbn [fst].
  rewrite (dict_set_new results _ _ Hnew).
  rewrite (parse_instructions _ _ P1), (store_current _ _ _ _ _ _ _ _ Hnew W1 N1).
  rewrite (parse_l1 _ _ P2), (store_current _ _ _ _ _ _ _ _ Hnew W2 N2).
  rewrite (parse_l2 _ _ P3), (store_current _ _ _ _ _ _ _ _ Hnew W3 N3).
  rewrite (parse_ram _ _ P4), (store_current _ _ _ _ _ _ _ _ Hnew W4 N4).
  rewrite (parse_cycles _ _ P5), (store_current _ _ _ _ _ _ _ _ Hnew W5 N5).
  rewrite <- !app_assoc. reflexivity.
Qed.

Lemma keys_app {V : Type} (d e : dict V) :
  keys (d ++ e)%list = (keys d ++ keys e)%list.
Proof. apply map_app. Qed.

Lemma read_blocks (bs : list sample) (blocks : list (list string)) :
  Forall2 (well_formed strip split int) bs blocks ->
  NoDup (map s_name bs) ->
  forall results curr out,
    (forall b, In b bs -> ~ In (s_name b) (keys results)) ->
    exists curr',
      read_lines strip split int (List.concat blocks) (results, curr) out
      = ((out ++ map Echo (List.concat blocks))%list,
         inr ((results ++ map entry bs)%list, curr')).
Proof.
  induction 1 as [|b raws bs blocks Hb Hbs IH];
    intros Hnd results curr out Hfresh.
  - exists curr. simpl. unfold ret. now rewrite !app_nil_r.
  - cbn [List.concat map]. inversion Hnd as [|? ? Hhead Htail]; subst.
    rewrite (read_block b raws (List.concat blocks) results curr out Hb)
      by (apply Hfresh; now left).
    destruct (IH Htail (results ++ [entry b])%list (Some (s_name b))
                (out ++ map Echo raws)%list) as [curr' H'].
    { intros b' Hin Hk. rewrite keys_app in Hk.
      apply in_app_or in Hk as [Hk|Hk].
      - exact (Hfresh b' (or_intror Hin) Hk).
      - simpl in Hk. destruct Hk as [Hk|[]].
        apply Hhead. rewrite Hk. now apply in_map. }
    exists curr'. etransitivity; [exact H'|].
    now rewrite map_app, <- !app_assoc.
Qed.

Lemma lookup_entry (bs : list sample) (b : sample) :
  NoDup (map s_name bs) -> In b bs ->
  lookup (map entry bs) (s_name b) = inr (counters b).
Proof.
  unfold lookup. induction bs as [|a bs IH]; intros Hnd Hin; [contradiction|].
  inversion Hnd as [|? ? Hhead Htail]; subst. simpl.
  destruct (String.eqb_spec (s_name a) (s_name b)) as [Heq|Hne].
  - destruct Hin as [->|Hin]; [reflexivity|].
    exfalso. apply Hhead. rewrite Heq. now apply in_map.
  - destruct Hin as [->|Hin]; [congruence|]. now apply IH.
Qed.

Lemma report_one_sample (results : dict (dict Z)) (first b : sample)
    (out : list out_item) :
  lookup results (s_name b) = inr (counters b) ->
  report_one results (counters first) (s_name b) out
  = ((out ++ delta_block first b)%list, inr tt).
Proof.
  intros Hres. unfold report_one, bind, lift, emit. rewrite Hres.
  cbv [difference lookup counters dict_get].
  cbn [String.eqb Ascii.eqb Bool.eqb].
  unfold delta_block. now rewrite <- !app_assoc.
Qed.

Lemma report_samples (results : dict (dict Z)) (first : sample)
    (bs : list sample) :
  (forall b, In b bs -> lookup results (s_name b) = inr (counters b)) ->
  forall out,
    for_ (map s_name bs) (report_one results (counters first)) out
    = ((out ++ flat_map (delta_block first) bs)%list, inr tt).
Proof.
  induction bs as [|b bs IH]; intros Hres out.
  - simpl. unfold ret. now rewrite app_nil_r.
  - cbn [map for_ flat_map]. unfold bind.
    rewrite report_one_sample by (apply Hres; now left).
    rewrite IH by (intros; apply Hres; now right).
    now rewrite <- app_assoc.
Qed.

(** On well-formed input (for each benchmark a name line and its five counter
    lines, names pairwise different) the run ends normally; it prints the
    input, the heading, and for every benchmark after the first its name, the
    five differences to the first benchmark's counters, and an empty line. *)
Theorem deltas_against_first (first : sample) (others : list sample)
    (blocks : list (list string)) :
  Forall2 (well_formed strip split int) (first :: others) blocks ->
  NoDup (map s_name (first :: others)) ->
  main strip split int (List.concat blocks)
  = ((map Echo (List.concat blocks)
        ++ Print [Str "--- Deltas ---"]
        :: flat_map (delta_block first) others)%list,
     inr tt).
Proof.
  intros Hwf Hnd.
  destruct (read_blocks _ _ Hwf Hnd [] None []) as [curr' Hread];
    [intros; simpl; tauto|].
  unfold main, bind.
  destruct (read_lines strip split int (List.concat blocks) ([], None) [])
    as [out' r] eqn:E.
  pose proof (eq_trans (eq_sym E) Hread) as E'.
  injection E' as -> ->. cbn [fst app].
  unfold report. cbn [keys map fst entry]. unfold bind, lift, emit.
  change (entry first :: map entry others) with (map entry (first :: others)).
  rewrite (lookup_entry (first :: others) first Hnd) by now left.
  replace (map fst (map entry others)) with (map s_name others)
    by (rewrite map_map; reflexivity).
  rewrite (report_samples (map entry (first :: others)) first others).
  - now rewrite <- app_assoc.
  - intros b Hb. apply lookup_entry; [assumption|now right].
Qed.

(** *** A benchmark that is reported twice *)

Lemma store_head (tail : dict (dict Z)) (name key line word : string)
    (inner : dict Z) (field : nat) (n : Z) :
  nth_error (split line) field = Some word ->
  int word = Some n ->
  store split int ((name, inner) :: tail, Some name) key field line
  = inr ((name, dict_set inner key n) :: tail, Some name).
Proof.
  intros Hword Hint. unfold store. rewrite Hword, Hint.
  cbn [dict_get dict_set]. now rewrite String.eqb_refl.
Qed.

Lemma read_block_again (b : sample) (raws rest : list string)
    (old : dict Z) (tail : dict (dict Z)) (curr : option string)
    (out : list out_item) :
  well_formed strip split int b raws ->
  read_lines strip split int (raws ++ rest)
    ((s_name b, old) :: tail, curr) out
  = read_lines strip split int rest
      (entry b :: tail, Some (s_name b)) (out ++ map Echo raws)%list.
Proof.
  intros (r0 & r1 & r2 & r3 & r4 & r5 & -> & Hname & Hne & Hnm
          & (P1 & w1 & W1 & N1) & (P2 & w2 & W2 & N2) & (P3 & w3 & W3 & N3)
          & (P4 & w4 & W4 & N4) & (P5 & w5 & W5 & N5)).
  cbn [app read_lines]. unfold bind, emit, lift.
  rewrite Hname, (parse_name _ _ Hne Hnm). cbn [fst dict_set].
  rewrite String.eqb_refl.
  rewrite (parse_instructions _ _ P1), (store_head _ _ _ _ _ _ _ _ W1 N1).
  rewrite (parse_l1 _ _ P2), (store_head _ _ _ _ _ _ _ _ W2 N2).
  rewrite (parse_l2 _ _ P3), (store_head _ _ _ _ _ _ _ _ W3 N3).
  rewrite (parse_ram _ _ P4), (store_head _ _ _ _ _ _ _ _ W4 N4).
  rewrite (parse_cycles _ _ P5), (store_head _ _ _ _ _ _ _ _ W5 N5).
  rewrite <- !app_assoc. reflexivity.
Qed.

(** When the first benchmark is reported once more at the end of the input,
    its later counters replace the earlier ones and it stays the baseline:
    every other benchmark is compared with the later run, and no block is
    printed for the repeated name. *)
Theorem repeated_baseline_uses_last_run (first again : sample)
    (others : list sample) (blocks : list (list string))
    (last_block : list string) :
  Forall2 (well_formed strip split int) (first :: others) blocks ->
  well_formed strip split int again last_block ->
  s_name again = s_name first ->
  NoDup (map s_name (first :: others)) ->
  main strip split int (List.concat blocks ++ last_block)
  = ((map Echo (List.concat blocks ++ last_block)
        ++ Print [Str "--- Deltas ---"]
        :: flat_map (delta_block again) others)%list,
     inr tt).
Proof.
  intros Hwf Hagain Hsame Hnd.
  destruct (read_blocks _ _ Hwf Hnd [] None []) as [curr' Hread];
    [intros; simpl; tauto|].
  assert (Hnd' : NoDup (map s_name (again :: others)))
    by (cbn [map] in Hnd |- *; now rewrite Hsame).
  unfold main, bind.
  destruct (read_lines strip split int (List.concat blocks ++ last_block)
              ([], None) []) as [out' r] eqn:E.
  rewrite read_lines_app in E.
  destruct (read_lines strip split int (List.concat blocks) ([], None) [])
    as [out1 r1] eqn:E1.
  pose proof (eq_trans (eq_sym E1) Hread) as E1'.
  injection E1' as -> ->.
  cbn [app map] in E. unfold entry at 1 in E. rewrite <- Hsame in E.
  rewrite <- (app_nil_r last_block) in E at 1.
  rewrite (read_block_again again last_block [] _ _ _ _ Hagain) in E.
  cbn [read_lines] in E. unfold ret in E.
  injection E as <- <-. cbn [fst].
  unfold report. cbn [keys map fst entry]. unfold bind, lift, emit.
  change (entry again :: map entry others) with (map entry (again :: others)).
  rewrite (lookup_entry (again :: others) again Hnd') by now left.
  replace (map fst (map entry others)) with (map s_name others)
    by (rewrite map_map; reflexivity).
  rewrite (report_samples (map entry (again :: others)) again others).
  - now rewrite map_app, <- !app_assoc.
  - intros b Hb. apply lookup_entry; [assumption|now right].
Qed.

End Reporter.

Lemma no_benchmark_is_an_error_witness :
  Iai.main Iai.ascii_strip Iai.ascii_split Iai.ascii_int ["   "; ""]%string
  = (map Iai.Echo ["   "; ""]%string, inl Iai.ValueError).
Proof.
  apply (no_benchmark_is_an_error Iai.ascii_strip Iai.ascii_split Iai.ascii_int).
  repeat constructor.
Defined.


Lemma deltas_against_first_witness :
  let a := {| Iai.s_name := "bench_a"; Iai.s_instructions := 100;
              Iai.s_l1 := 20; Iai.s_l2 := 3; Iai.s_ram := 4;
              Iai.s_cycles := 250 |} in
  let b := {| Iai.s_name := "bench_b"; Iai.s_instructions := 90;
              Iai.s_l1 := 25; Iai.s_l2 := 3; Iai.s_ram := 1;
              Iai.s_cycles := 210 |} in
  let blocks :=
    [ [ "bench_a"; "  Instructions: 100"; "  L1 Accesses: 20";
        "  L2 Accesses: 3"; "  RAM Accesses: 4"; "  Estimated Cycles: 250" ];
      [ "bench_b"; "  Instructions: 90"; "  L1 Accesses: 25";
        "  L2 Accesses: 3"; "  RAM Accesses: 1"; "  Estimated Cycles: 210" ]
    ]%string in
  Iai.main Iai.ascii_strip Iai.ascii_split Iai.ascii_int (List.concat blocks)
  = ((map Iai.Echo (List.concat blocks)
        ++ Iai.Print [Iai.Str "--- Deltas ---"]
        :: flat_map (Iai.delta_block a) [b])%list,
     inr tt).
Proof.
  intros a b blocks.
  apply (deltas_against_first Iai.ascii_strip Iai.ascii_split Iai.ascii_int
           a [b] blocks).
  - repeat (apply Forall2_cons || apply Forall2_nil);
      (unfold Iai.well_formed, Iai.metric_line; do 6 eexists;
       repeat split; try reflexivity; try discriminate;
       eexists; split; reflexivity).
  - repeat constructor; simpl; intuition discriminate.
Defined.

Lemma repeated_baseline_uses_last_run_witness :
  let a := {| Iai.s_name := "bench_a"; Iai.s_instructions := 100;
              Iai.s_l1 := 20; Iai.s_l2 := 3; Iai.s_ram := 4;
              Iai.s_cycles := 250 |} in
  let b := {| Iai.s_name := "bench_b"; Iai.s_instructions := 90;
              Iai.s_l1 := 25; Iai.s_l2 := 3; Iai.s_ram := 1;
              Iai.s_cycles := 210 |} in
  let a' := {| Iai.s_name := "bench_a"; Iai.s_instructions := 80;
               Iai.s_l1 := 10; Iai.s_l2 := 2; Iai.s_ram := 1;
               Iai.s_cycles := 55 |} in
  let blocks :=
    [ [ "bench_a"; "  Instructions: 100"; "  L1 Accesses: 20";
        "  L2 Accesses: 3"; "  RAM Accesses: 4"; "  Estimated Cycles: 250" ];
      [ "bench_b"; "  Instructions: 90"; "  L1 Accesses: 25";
        "  L2 Accesses: 3"; "  RAM Accesses: 1"; "  Estimated Cycles: 210" ]
    ]%string in
  let last_block :=
    [ "bench_a"; "  Instructions: 80"; "  L1 Accesses: 10";
      "  L2 Accesses: 2"; "  RAM Accesses: 1"; "  Estimated Cycles: 55"
    ]%string in
  Iai.main Iai.ascii_strip Iai.ascii_split Iai.ascii_int
    (List.concat blocks ++ last_block)
  = ((map Iai.Echo (List.concat blocks ++ last_block)
        ++ Iai.Print [Iai.Str "--- Deltas ---"]
        :: flat_map (Iai.delta_block a') [b])%list,
     inr tt).
Proof.
  intros a b a' blocks last_block.
  apply (repeated_baseline_uses_last_run Iai.ascii_strip Iai.ascii_split
           Iai.ascii_int a a' [b] blocks last_block).
  - repeat (apply Forall2_cons || apply Forall2_nil);
      (unfold Iai.well_formed, Iai.metric_line; do 6 eexists;
       repeat split; try reflexivity; try discriminate;
       eexists; split; reflexivity).
  - unfold Iai.well_formed, Iai.metric_line; do 6 eexists;
      repeat split; try reflexivity; try discriminate;
      eexists; split; reflexivity.
  - reflexivity.
  - repeat constructor; simpl; intuition discriminate.
Defined.

(** * The probability-table printers *)

Lemma range_length (lo hi : Z) :
  List.length (range lo hi) = Z.to_nat (hi - lo).
Proof.
  unfold range. now rewrite length_map, length_seq.
Qed.



Lemma flat_map_singleton {A B : Type} (g : A -> B) (xs : list A) :
  flat_map (fun x => [g x]) xs = map g xs.
Proof.
  induction xs as [|x xs IH]; simpl; [reflexivity|now rewrite IH].
Qed.

Section Printers.

Import Probs.

Variable J : Type.
Variable F : Type.
Variable float : J -> exn + F.
Variable format_f : F -> string.

Local Open Scope string_scope.

Lemma probs_for_appends {A : Type} (f : A -> list string) (body : A -> M unit)
    (xs : list A) :
  (forall x out, In x xs -> body x out = ((out ++ f x)%list, inr tt)) ->
  forall out, for_ xs body out = ((out ++ flat_map f xs)%list, inr tt).
Proof.
  induction xs as [|x xs IH]; intros Hbody out; simpl.
  - unfold ret. now rewrite app_nil_r.
  - unfold bind. rewrite Hbody by now left.
    rewrite IH by (intros; apply Hbody; now right).
    now rewrite app_assoc.
Qed.


Lemma entries_loop (table : Iai.dict (Iai.dict J)) (p : Z -> Z -> F)
    (at_ hi : Z) (out : list string) :
  (forall de, 0 <= de < hi -> item float table at_ de = inr (p at_ de)) ->
  for_ (range 0 hi)
    (fun de =>
       prob <- lift (item float table at_ de) ;;
       print (entry_line format_f prob at_ de)) out
  = ((out ++ entries_upto format_f p at_ hi)%list, inr tt).
Proof.
  intros Hrow. unfold entries_upto.
  rewrite <- (flat_map_singleton
                (fun de => entry_line format_f (p at_ de) at_ de)).
  apply probs_for_appends. intros de out' Hin.
  unfold bind, lift, print. rewrite Hrow; [reflexivity|].
  unfold range in Hin. apply in_map_iff in Hin as [i [<- Hi]].
  apply in_seq in Hi. lia.
Qed.

Lemma flat_rows_loop (table : Iai.dict (Iai.dict J)) (p : Z -> Z -> F)
    (hi : Z) (out : list string) :
  (forall a d, 0 <= a < hi -> 0 <= d < 16 ->
     item float table a d = inr (p a d)) ->
  for_ (range 0 hi)
    (fun at_ =>
       print (attack_comment at_) ;;
       for_ (range 0 (0xF + 1))
         (fun de =>
            prob <- lift (item float table at_ de) ;;
            print (entry_line format_f prob at_ de))) out
  = ((out ++ flat_map (flat_row format_f p) (range 0 hi))%list, inr tt).
Proof.
  intros Hall. apply probs_for_appends. intros a out' Hin.
  unfold range in Hin. apply in_map_iff in Hin as [i [<- Hi]].
  apply in_seq in Hi.
  unfold bind at 1. unfold print at 1. change (0xF + 1) with 16.
  rewrite (entries_loop table p) by (intros; apply Hall; lia).
  unfold flat_row, row_entries. now rewrite <- app_assoc.
Qed.

Lemma bracketed_rows_loop (table : Iai.dict (Iai.dict J)) (p : Z -> Z -> F)
    (hi : Z) (out : list string) :
  (forall a d, 0 <= a < hi -> 0 <= d < 16 ->
     item float table a d = inr (p a d)) ->
  for_ (range 0 hi)
    (fun at_ =>
       print (attack_comment at_) ;;
       print "[" ;;
       for_ (range 0 (0xF + 1))
         (fun de =>
            prob <- lift (item float table at_ de) ;;
            print (entry_line format_f prob at_ de)) ;;
       print "],") out
  = ((out ++ flat_map (bracketed_row format_f p) (range 0 hi))%list, inr tt).
Proof.
  intros Hall. apply probs_for_appends. intros a out' Hin.
  unfold range in Hin. apply in_map_iff in Hin as [i [<- Hi]].
  apply in_seq in Hi.
  unfold bind at 1. unfold print at 1.
  unfold bind at 1. unfold print at 1.
  unfold bind at 1. change (0xF + 1) with 16.
  rewrite (entries_loop table p) by (intros; apply Hall; lia).
  unfold print, bracketed_row, row_entries.
  rewrite <- !app_assoc. reflexivity.
Qed.

Lemma attack_comment_is_comment (at_ : Z) :
  String.prefix "//" (attack_comment at_) = true.
Proof.
  unfold attack_comment. cbn [String.append String.prefix].
  destruct (ascii_dec "/" "/"); [reflexivity|congruence].
Qed.

Lemma entry_line_is_no_comment (prob : F) (at_ de : Z) :
  String.prefix "//" (format_f prob) = false ->
  String.prefix "//" (entry_line format_f prob at_ de) = false.
Proof.
  unfold entry_line. intros Hf.
  destruct (format_f prob) as [|c [|d rest]];
    cbn [String.append String.prefix] in Hf |- *;
    repeat match goal with
           | |- context [ascii_dec ?x ?y] => destruct (ascii_dec x y)
           end;
    try reflexivity; try discriminate; try assumption;
    destruct rest; discriminate Hf.
Qed.

Lemma filter_keep_all {A : Type} (f : A -> bool) (xs : list A) :
  (forall x, In x xs -> f x = true) -> filter f xs = xs.
Proof.
  induction xs as [|x xs IH]; intros Hall; simpl; [reflexivity|].
  rewrite (Hall x) by now left. f_equal. apply IH.
  intros; apply Hall; now right.
Qed.

Lemma elements_of_flat_rows (p : Z -> Z -> F) (xs : list Z) :
  (forall x, String.prefix "//" (format_f x) = false) ->
  filter (fun l => negb (String.prefix "//" l))
    (flat_map (flat_row format_f p) xs)
  = flat_map (row_entries format_f p) xs.
Proof.
  intros Hfmt. induction xs as [|x xs IH]; [reflexivity|].
  cbn [flat_map]. unfold flat_row at 1. cbn [app filter].
  rewrite attack_comment_is_comment. cbn [negb].
  rewrite filter_app, IH. f_equal.
  apply filter_keep_all. intros l Hin.
  unfold row_entries, entries_upto in Hin.
  apply in_map_iff in Hin as [d [<- _]].
  now rewrite entry_line_is_no_comment.
Qed.

Lemma key_is_flat_index (at_ de : Z) :
  0 <= at_ <= 15 -> 0 <= de <= 15 ->
  Z.lor (Z.shiftl at_ 4) de = 16 * at_ + de.
Proof.
  intros Ha Hd. each_cell at_; each_cell de; reflexivity.
Qed.

Lemma row_entries_length (p : Z -> Z -> F) (at_ : Z) :
  List.length (row_entries format_f p at_) = 16%nat.
Proof.
  unfold row_entries, entries_upto. now rewrite length_map, range_length.
Qed.

Lemma row_entries_nth (p : Z -> Z -> F) (at_ de : Z) :
  0 <= de <= 15 ->
  nth_error (row_entries format_f p at_) (Z.to_nat de)
  = Some (entry_line format_f (p at_ de) at_ de).
Proof.
  intros Hd. unfold row_entries, entries_upto.
  rewrite nth_error_map, nth_error_range by lia. reflexivity.
Qed.

(** On a table that has a number for all 256 (attack, defense) pairs, the
    flat printer ends normally after 275 prints.  The printed array has
    exactly 256 elements, and the element at index [att << 4 | def], the key
    computed by the printed [lookup] function, is the line of that pair. *)
Theorem flat_table_is_indexed_by_key (name : string)
    (table : Iai.dict (Iai.dict J)) (p : Z -> Z -> F) (at_ de : Z) :
  (forall a d, 0 <= a <= 15 -> 0 <= d <= 15 ->
     item float table a d = inr (p a d)) ->
  (forall x, String.prefix "//" (format_f x) = false) ->
  0 <= at_ <= 15 -> 0 <= de <= 15 ->
  exists printed,
    print_lookup_table float format_f name table [] = (printed, inr tt)
    /\ List.length printed = 275%nat
    /\ List.length (array_elements printed) = 256%nat
    /\ nth_error (array_elements printed)
         (Z.to_nat (Z.lor (Z.shiftl at_ 4) de))
       = Some (entry_line format_f (p at_ de) at_ de).
Proof.
  intros Hall Hfmt Ha Hd.
  exists ("" :: ("const " ++ name ++ ": [f32; 256] = [")%string
             :: flat_map (flat_row format_f p) (range 0 16) ++ ["];"])%list.
  assert (Hlen : forall xs : list Z,
             List.length (flat_map (row_entries format_f p) xs)
             = (16 * List.length xs)%nat).
  { intros xs. rewrite (flat_map_constant_length (c := 16%nat)).
    - lia.
    - intros; apply row_entries_length. }
  split.
  { unfold print_lookup_table.
    unfold bind at 1. unfold print at 1.
    unfold bind at 1. unfold print at 1.
    unfold bind at 1. change (0xF + 1) with 16 at 1.
    rewrite (flat_rows_loop table p 16) by (intros; apply Hall; lia).
    unfold print. cbn [app]. reflexivity. }
  split.
  { cbn [List.length]. rewrite length_app.
    rewrite (flat_map_constant_length (c := 17%nat)).
    - rewrite range_length. reflexivity.
    - intros. unfold flat_row. cbn [List.length].
      now rewrite row_entries_length. }
  unfold array_elements. cbn [skipn]. rewrite removelast_last.
  rewrite (elements_of_flat_rows p _ Hfmt).
  split.
  { rewrite Hlen, range_length. reflexivity. }
  rewrite key_is_flat_index by assumption.
  replace (Z.to_nat (16 * at_ + de))
    with (Z.to_nat at_ * 16 + Z.to_nat de)%nat by lia.
  rewrite (nth_error_blocks (row_entries format_f p) 16 (range 0 16)
             (fun y => row_entries_length p y) (Z.to_nat at_) (Z.to_nat de) at_).
  - now apply row_entries_nth.
  - now rewrite nth_error_range by lia.
  - lia.
Qed.


(** On a complete table the two-dimensional printer ends normally after 307
    prints: sixteen rows, each opened by its comment and a bracket, holding
    sixteen lines in ascending defense order, and closed by a bracket, so
    that row [att], column [def] of the printed array is the line of that
    pair. *)
Theorem row_table_is_indexed_by_pair (name : string)
    (table : Iai.dict (Iai.dict J)) (p : Z -> Z -> F) (at_ de : Z) :
  (forall a d, 0 <= a <= 15 -> 0 <= d <= 15 ->
     item float table a d = inr (p a d)) ->
  0 <= at_ <= 15 -> 0 <= de <= 15 ->
  exists printed,
    print_lookup_table_2d float format_f name table [] = (printed, inr tt)
    /\ List.length printed = 307%nat
    /\ nth_error printed (Z.to_nat (2 + 19 * at_)) = Some (attack_comment at_)
    /\ nth_error printed (Z.to_nat (2 + 19 * at_ + 1)) = Some "["
    /\ nth_error printed (Z.to_nat (2 + 19 * at_ + 2 + de))
       = Some (entry_line format_f (p at_ de) at_ de)
    /\ nth_error printed (Z.to_nat (2 + 19 * at_ + 18)) = Some "],".
Proof.
  intros Hall Ha Hd.
  exists ("" :: ("const " ++ name ++ ": [[f32; 16]; 16] = [")%string
             :: flat_map (bracketed_row format_f p) (range 0 16)
             ++ ["];"])%list.
  assert (Hrow : forall y, List.length (bracketed_row format_f p y) = 19%nat).
  { intros y. unfold bracketed_row. cbn [List.length].
    rewrite length_app, row_entries_length. reflexivity. }
  assert (Hnth : forall i, (i < 19)%nat ->
             nth_error
               ("" :: ("const " ++ name ++ ": [[f32; 16]; 16] = [")%string
                   :: flat_map (bracketed_row format_f p) (range 0 16)
                   ++ ["];"])%list
               (2 + (Z.to_nat at_ * 19 + i))
             = nth_error (bracketed_row format_f p at_) i).
  { intros i Hi. cbn [Nat.add nth_error].
    rewrite nth_error_app1.
    - apply nth_error_blocks; [exact Hrow| |assumption].
      now rewrite nth_error_range by lia.
    - rewrite (flat_map_constant_length (c := 19%nat)) by (intros; apply Hrow).
      rewrite range_length. change (Z.to_nat (16 - 0)) with 16%nat. lia. }
  split.
  { unfold print_lookup_table_2d.
    unfold bind at 1. unfold print at 1.
    unfold bind at 1. unfold print at 1.
    unfold bind at 1. change (0xF + 1) with 16 at 1.
    rewrite (bracketed_rows_loop table p 16) by (intros; apply Hall; lia).
    unfold print. cbn [app]. reflexivity. }
  split.
  { cbn [List.length]. rewrite length_app.
    rewrite (flat_map_constant_length (c := 19%nat)) by (intros; apply Hrow).
    rewrite range_length. reflexivity. }
  split.
  { replace (Z.to_nat (2 + 19 * at_))
      with (2 + (Z.to_nat at_ * 19 + 0))%nat by lia.
    rewrite Hnth by lia. reflexivity. }
  split.
  { replace (Z.to_nat (2 + 19 * at_ + 1))
      with (2 + (Z.to_nat at_ * 19 + 1))%nat by lia.
    rewrite Hnth by lia. reflexivity. }
  split.
  { replace (Z.to_nat (2 + 19 * at_ + 2 + de))
      with (2 + (Z.to_nat at_ * 19 + (2 + Z.to_nat de)))%nat by lia.
    rewrite Hnth by lia. unfold bracketed_row. cbn [Nat.add nth_error].
    rewrite nth_error_app1 by (rewrite row_entries_length; lia).
    now apply row_entries_nth. }
  replace (Z.to_nat (2 + 19 * at_ + 18))
    with (2 + (Z.to_nat at_ * 19 + 18))%nat by lia.
  rewrite Hnth by lia. unfold bracketed_row.
  change (nth_error (row_entries format_f p at_ ++ ["],"])%list 16
          = Some "],").
  rewrite nth_error_app2 by (rewrite row_entries_length; lia).
  rewrite row_entries_length. reflexivity.
Qed.

End Printers.

(** * The CSV loader *)

Lemma dict_get_set_same {V : Type} (d : Iai.dict V) (k : string) (v : V) :
  Iai.dict_get (Iai.dict_set d k v) k = Some v.
Proof.
  induction d as [|[k' v'] d IH]; simpl.
  - now rewrite String.eqb_refl.
  - destruct (String.eqb_spec k' k) as [->|Hne]; simpl.
    + now rewrite String.eqb_refl.
    + apply String.eqb_neq in Hne. now rewrite Hne.
Qed.

Lemma dict_get_set_other {V : Type} (d : Iai.dict V) (k k' : string) (v : V) :
  k <> k' -> Iai.dict_get (Iai.dict_set d k v) k' = Iai.dict_get d k'.
Proof.
  intros Hne. induction d as [|[k0 v0] d IH]; simpl.
  - apply String.eqb_neq in Hne. now rewrite Hne.
  - destruct (String.eqb_spec k0 k) as [->|Hk]; simpl.
    + apply String.eqb_neq in Hne. now rewrite Hne.
    + now rewrite IH.
Qed.

Section Loading.

Import Anydice.

Variable F : Type.
Variable contains_v : string -> bool.
Variable split_v : string -> list string.
Variable float : string -> option F.

Local Abbreviation load_row := (Anydice.load_row contains_v split_v float).
Local Abbreviation load_rows := (Anydice.load_rows contains_v split_v float).
Local Abbreviation load_anydice :=
  (Anydice.load_anydice contains_v split_v float).
Local Abbreviation targets := (Anydice.targets contains_v split_v).
Local Abbreviation hits := (Anydice.hits contains_v split_v float).
Local Abbreviation considered := (Anydice.considered contains_v).
Local Abbreviation found := (Anydice.found contains_v split_v float).

Lemma skipped_row (data : Iai.dict (Iai.dict F)) (row : list string) :
  considered row = false -> load_row data row = inr data.
Proof.
  destruct row as [|label [|value rest]]; simpl; try reflexivity.
  now intros ->.
Qed.

Lemma skipped_row_targets_nothing (row : list string) (at_ de : string) :
  considered row = false -> ~ targets row at_ de.
Proof.
  intros Hc (label & value & rest & -> & Hv & _). simpl in Hc. congruence.
Qed.

(** What one stored row does to a lookup. *)
Lemma stored_row (data data' : Iai.dict (Iai.dict F))
    (label value a d : string) (rest : list string) (at_ de : string) :
  contains_v label = true ->
  split_v label = [a; d] ->
  load_row data (label :: value :: rest) = inr data' ->
  exists q,
    float value = Some q
    /\ get2 data' at_ de
       = if (String.eqb a at_ && String.eqb d de)%bool then Some q
         else get2 data at_ de.
Proof.
  intros Hv Hs. unfold Anydice.load_row. rewrite Hv, Hs. cbn [negb].
  destruct (float value) as [q|]; [|discriminate].
  set (data1 := match Iai.dict_get data a with
                | Some _ => data
                | None => Iai.dict_set data a []
                end).
  assert (H1 : exists inner,
             Iai.dict_get data1 a = Some inner
             /\ (forall k, Iai.dict_get inner k
                           = match Iai.dict_get data a with
                             | Some i => Iai.dict_get i k
                             | None => None
                             end)
             /\ (forall k, k <> a ->
                           Iai.dict_get data1 k = Iai.dict_get data k)).
  { subst data1. destruct (Iai.dict_get data a) as [i|] eqn:Hget.
    - exists i. now repeat split.
    - exists []. rewrite dict_get_set_same. repeat split.
      intros k Hk. apply dict_get_set_other. congruence. }
  destruct H1 as (inner & Hinner & Hsame & Hother). rewrite Hinner.
  intros [= <-]. exists q. split; [reflexivity|].
  unfold get2.
  destruct (String.eqb_spec a at_) as [->|Ha]; cbn [andb].
  - rewrite dict_get_set_same.
    destruct (String.eqb_spec d de) as [->|Hd].
    + apply dict_get_set_same.
    + rewrite dict_get_set_other by assumption. apply Hsame.
  - rewrite dict_get_set_other by assumption.
    now rewrite Hother by congruence.
Qed.

Lemma found_later (r : list string) (rows : list (list string))
    (at_ de : string) (p : F) :
  found rows at_ de p -> found (r :: rows) at_ de p.
Proof.
  intros (pre & r0 & post & -> & Hh & Hp).
  exists (r :: pre), r0, post. now repeat split.
Qed.

Lemma found_cons (r : list string) (rows : list (list string))
    (at_ de : string) (p : F) :
  found (r :: rows) at_ de p ->
  found rows at_ de p
  \/ (hits r at_ de p /\ Forall (fun r' => ~ targets r' at_ de) rows).
Proof.
  intros (pre & r0 & post & Heq & Hh & Hp).
  destruct pre as [|x pre]; simpl in Heq; injection Heq as -> ->.
  - right. now split.
  - left. exists pre, r0, post. now repeat split.
Qed.

Lemma hits_targets (r : list string) (at_ de : string) (p : F) :
  hits r at_ de p -> targets r at_ de.
Proof.
  intros (label & value & rest & -> & Hv & Hs & _).
  exists label, value, rest. now repeat split.
Qed.

Lemma load_rows_lookup (rows : list (list string)) (at_ de : string) (p : F) :
  forall data data',
    load_rows data rows = inr data' ->
    get2 data' at_ de = Some p
    <-> found rows at_ de p
        \/ (get2 data at_ de = Some p
            /\ Forall (fun r => ~ targets r at_ de) rows).
Proof.
  induction rows as [|r rows IH]; intros data data' Hload.
  - simpl in Hload. injection Hload as <-. split.
    + intros H. right. now split.
    + intros [(pre & r0 & post & Heq & _)|[H _]]; [|assumption].
      destruct pre; discriminate.
  - simpl in Hload.
    destruct (load_row data r) as [e|data1] eqn:Hrow; [discriminate|].
    rewrite (IH data1 data' Hload). clear IH Hload.
    assert (Hcase :
              (get2 data1 at_ de = get2 data at_ de /\ ~ targets r at_ de)
              \/ (exists q, get2 data1 at_ de = Some q /\ hits r at_ de q
                            /\ forall p', hits r at_ de p' -> p' = q)).
    { destruct (considered r) eqn:Hc.
      - destruct r as [|label [|value rest]]; try discriminate.
        simpl in Hc.
        destruct (split_v label) as [|a [|d [|x l]]] eqn:Hs;
          try (unfold Anydice.load_row in Hrow; rewrite Hc, Hs in Hrow;
               discriminate).
        destruct (stored_row data data1 label value a d rest at_ de Hc Hs Hrow)
          as (q & Hq & Hget).
        destruct (String.eqb_spec a at_) as [->|Ha];
          [destruct (String.eqb_spec d de) as [->|Hd]|]; cbn [andb] in Hget.
        + right. exists q. split; [assumption|]. split.
          * exists label, value, rest. now repeat split.
          * intros p' (l' & v' & r' & [= <- <- <-] & _ & _ & Hf). congruence.
        + left. split; [assumption|].
          intros (l' & v' & r' & [= <- <- <-] & _ & Hs'). congruence.
        + left. split; [assumption|].
          intros (l' & v' & r' & [= <- <- <-] & _ & Hs'). congruence.
      - left. rewrite (skipped_row data r Hc) in Hrow. injection Hrow as <-.
        split; [reflexivity|now apply skipped_row_targets_nothing]. }
    destruct Hcase as [[Hsame Hno]|(q & Hq & Hhit & Huniq)].
    + rewrite Hsame. split.
      * intros [Hf|[Hg Hall]].
        -- left. now apply found_later.
        -- right. split; [assumption|now constructor].
      * intros [Hf|[Hg Hall]].
        -- apply found_cons in Hf as [Hf|[Hh _]]; [now left|].
           exfalso. apply Hno. eapply hits_targets; eassumption.
        -- right. inversion Hall; subst. now split.
    + rewrite Hq. split.
      * intros [Hf|[[= <-] Hall]].
        -- left. now apply found_later.
        -- left. exists [], r, rows. now repeat split.
      * intros [Hf|[_ Hall]].
        -- apply found_cons in Hf as [Hf|[Hh Hall]]; [now left|].
           right. split; [|assumption]. f_equal. symmetry. now apply Huniq.
        -- exfalso. inversion Hall as [|? ? Hr _]; subst.
           apply Hr. eapply hits_targets; eassumption.
Qed.

(** Last writer wins: after a successful load, [data[at][de]] is [p] exactly
    when some row stores [p] under that pair and no later row stores anything
    under the same pair. *)
Theorem loaded_value_is_last_row (rows : list (list string))
    (data : Iai.dict (Iai.dict F)) (at_ de : string) (p : F) :
  load_anydice rows = inr data ->
  get2 data at_ de = Some p
  <-> exists pre r post,
        rows = (pre ++ r :: post)%list
        /\ hits r at_ de p
        /\ Forall (fun r' => ~ targets r' at_ de) post.
Proof.
  intros Hload. unfold Anydice.load_anydice in Hload.
  rewrite (load_rows_lookup rows at_ de p [] data Hload).
  split; [|now left].
  intros [H|[H _]]; [exact H|discriminate].
Qed.

Lemma load_rows_app (xs ys : list (list string)) :
  forall data,
    load_rows data (xs ++ ys)
    = match load_rows data xs with
      | inl e => inl e
      | inr data' => load_rows data' ys
      end.
Proof.
  induction xs as [|x xs IH]; intros data; simpl; [reflexivity|].
  destruct (load_row data x); [reflexivity|apply IH].
Qed.

(** A label that contains the separator but does not split into exactly two
    parts (as ["1 v 2 v 3"] does) ends the load in [ValueError], whatever
    follows it. *)
Theorem ambiguous_label_raises (pre post : list (list string))
    (label value : string) (rest : list string)
    (data : Iai.dict (Iai.dict F)) :
  load_anydice pre = inr data ->
  contains_v label = true ->
  List.length (split_v label) <> 2%nat ->
  load_anydice (pre ++ (label :: value :: rest) :: post) = inl ValueError.
Proof.
  intros Hpre Hv Hlen. unfold Anydice.load_anydice in *.
  rewrite load_rows_app, Hpre. simpl. rewrite Hv. cbn [negb].
  destruct (split_v label) as [|a [|d [|x l]]]; try reflexivity.
  simpl in Hlen. congruence.
Qed.

(** Rows with fewer than two fields and rows whose label lacks the separator
    never matter: the load of the rows equals the load of the rows that are
    left when those are removed. *)
Theorem skipped_rows_are_irrelevant (rows : list (list string)) :
  load_anydice rows = load_anydice (filter considered rows).
Proof.
  unfold Anydice.load_anydice. generalize (@nil (string * Iai.dict F)).
  induction rows as [|r rows IH]; intros data; [reflexivity|].
  cbn [filter]. destruct (considered r) eqn:Hc.
  - simpl. destruct (load_row data r); [reflexivity|apply IH].
  - simpl. rewrite (skipped_row data r Hc). apply IH.
Qed.

End Loading.

(** * The deterministic table *)

Lemma zget_missing {V : Type} (d : Deterministic.zdict V) (k : Z) :
  ~ In k (map fst d) -> Deterministic.zget d k = None.
Proof.
  induction d as [|[k' v] d IH]; simpl; intros Hk; [reflexivity|].
  destruct (Z.eqb_spec k' k); [tauto|]. apply IH. tauto.
Qed.

Lemma zget_found {V : Type} (d : Deterministic.zdict V) (k : Z) (v : V) :
  Deterministic.zget d k = Some v -> In (k, v) d.
Proof.
  induction d as [|[k' v'] d IH]; simpl; [discriminate|].
  destruct (Z.eqb_spec k' k) as [->|Hne].
  - intros [= ->]. now left.
  - intros H. right. now apply IH.
Qed.

Lemma In_range_inv (lo hi k : Z) : In k (range lo hi) -> lo <= k < hi.
Proof.
  unfold range. intros H. apply in_map_iff in H as [i [<- Hi]].
  apply in_seq in Hi. lia.
Qed.

Lemma zget_tabulated {V : Type} (f : Z -> V) (keys : list Z) (k : Z) :
  In k keys ->
  Deterministic.zget (map (fun a => (a, f a)) keys) k = Some (f k).
Proof.
  induction keys as [|a keys IH]; simpl; [contradiction|].
  destruct (Z.eqb_spec a k) as [->|Hne]; [reflexivity|].
  intros [H|H]; [contradiction|now apply IH].
Qed.

Lemma zget_not_tabulated {V : Type} (f : Z -> V) (keys : list Z) (k : Z) :
  ~ In k keys ->
  Deterministic.zget (map (fun a => (a, f a)) keys) k = None.
Proof.
  intros Hk. apply zget_missing. rewrite map_map. simpl.
  now rewrite map_id.
Qed.

Lemma deterministic_data_closed (F : Type) (one zero : F) :
  Deterministic.data one zero
  = map (fun a =>
           (a, map (fun d => (d, if a >? d then one else zero)) (range 0 16)))
        (range 0 16).
Proof. vm_compute. reflexivity. Qed.

(** The table holds exactly the pairs of [0, 15] x [0, 15], and its value is
    [1.0] when the attack is strictly greater than the defense and [0.0]
    otherwise: a tie goes to the defender. *)
Theorem deterministic_table_values (F : Type) (one zero : F) (at_ de : Z) :
  Deterministic.get2 (Deterministic.data one zero) at_ de
  = if (0 <=? at_) && (at_ <=? 15) && (0 <=? de) && (de <=? 15)
    then Some (if at_ >? de then one else zero)
    else None.
Proof.
  rewrite deterministic_data_closed. unfold Deterministic.get2.
  destruct (Z.leb_spec 0 at_) as [Ha0|Ha0]; cbn [andb].
  2:{ rewrite zget_not_tabulated; [reflexivity|].
      intros Hin. apply In_range_inv in Hin. lia. }
  destruct (Z.leb_spec at_ 15) as [Ha1|Ha1]; cbn [andb].
  2:{ rewrite zget_not_tabulated; [reflexivity|].
      intros Hin. apply In_range_inv in Hin. lia. }
  rewrite (zget_tabulated
             (fun a => map (fun d => (d, if a >? d then one else zero))
                         (range 0 16)))
    by (apply In_range; lia).
  destruct (Z.leb_spec 0 de) as [Hd0|Hd0]; cbn [andb].
  2:{ rewrite zget_not_tabulated; [reflexivity|].
      intros Hin. apply In_range_inv in Hin. lia. }
  destruct (Z.leb_spec de 15) as [Hd1|Hd1].
  2:{ rewrite zget_not_tabulated; [reflexivity|].
      intros Hin. apply In_range_inv in Hin. lia. }
  apply (zget_tabulated (fun d => if at_ >? d then one else zero)).
  apply In_range. lia.
Qed.

(** * Runs on concrete data *)

Lemma forallb_range (f : Z -> bool) :
  forallb f (range 0 16) = true -> forall k, 0 <= k <= 15 -> f k = true.
Proof.
  intros H k Hk. apply (proj1 (forallb_forall f (range 0 16)) H).
  apply In_range. lia.
Qed.

Lemma sample_cells_ok :
  forallb (fun a => forallb (sample_cell_ok a) (range 0 16)) (range 0 16)
  = true.
Proof. vm_compute. reflexivity. Qed.

Lemma ok_inr {E : Type} (r : E + Z) (x : Z) :
  match r with inr v => v =? x | inl _ => false end = true -> r = inr x.
Proof.
  destruct r as [e|v]; [discriminate|].
  intros H. apply Z.eqb_eq in H. now subst.
Qed.

Lemma sample_table_complete (a d : Z) :
  0 <= a <= 15 -> 0 <= d <= 15 ->
  Probs.item (fun j : Z => inr j) sample_table a d
  = inr (sample_value a d).
Proof.
  intros Ha Hd. apply ok_inr.
  exact (forallb_range _ (forallb_range _ sample_cells_ok a Ha) d Hd).
Qed.

Lemma format_01_is_no_comment (x : Z) :
  String.prefix "//" (Probs.format_01 x) = false.
Proof.
  unfold Probs.format_01. destruct (Z.eqb x 0); reflexivity.
Qed.

Lemma flat_table_is_indexed_by_key_witness :
  exists printed,
    Probs.print_lookup_table (fun j : Z => inr j) Probs.format_01
      "PROBS_DETERMINISTIC" sample_table []
    = (printed, inr tt)
    /\ List.length printed = 275%nat
    /\ List.length (Probs.array_elements printed) = 256%nat
    /\ nth_error (Probs.array_elements printed)
         (Z.to_nat (Z.lor (Z.shiftl 11 4) 3))
       = Some (Probs.entry_line Probs.format_01 (sample_value 11 3) 11 3).
Proof.
  apply (flat_table_is_indexed_by_key Z Z (fun j : Z => inr j) Probs.format_01
           "PROBS_DETERMINISTIC" sample_table sample_value 11 3).
  - exact sample_table_complete.
  - exact format_01_is_no_comment.
  - lia.
  - lia.
Defined.


Lemma row_table_is_indexed_by_pair_witness :
  exists printed,
    Probs.print_lookup_table_2d (fun j : Z => inr j) Probs.format_01
      "PROBS_DETERMINISTIC" sample_table []
    = (printed, inr tt)
    /\ List.length printed = 307%nat
    /\ nth_error printed (Z.to_nat (2 + 19 * 11))
       = Some (Probs.attack_comment 11)
    /\ nth_error printed (Z.to_nat (2 + 19 * 11 + 1)) = Some "["%string
    /\ nth_error printed (Z.to_nat (2 + 19 * 11 + 2 + 3))
       = Some (Probs.entry_line Probs.format_01 (sample_value 11 3) 11 3)
    /\ nth_error printed (Z.to_nat (2 + 19 * 11 + 18)) = Some "],"%string.
Proof.
  apply (row_table_is_indexed_by_pair Z Z (fun j : Z => inr j) Probs.format_01
           "PROBS_DETERMINISTIC" sample_table sample_value 11 3).
  - exact sample_table_complete.
  - lia.
  - lia.
Defined.

Lemma loaded_value_is_last_row_witness :
  Anydice.get2 [("3", [("7", 40)])]%string "3" "7" = Some 40
  <-> exists pre r post,
        [["output 1"; "x"]; ["3 v 7"; "12"]; ["3 v 7"; "40"]; ["junk"]]%string
        = (pre ++ r :: post)%list
        /\ Anydice.hits Anydice.ascii_contains_v Anydice.ascii_split_v
             Iai.ascii_int r "3" "7" 40
        /\ Forall
             (fun r' =>
                ~ Anydice.targets Anydice.ascii_contains_v
                    Anydice.ascii_split_v r' "3" "7")
             post.
Proof.
  apply (loaded_value_is_last_row Z Anydice.ascii_contains_v
           Anydice.ascii_split_v Iai.ascii_int
           [["output 1"; "x"]; ["3 v 7"; "12"]; ["3 v 7"; "40"]; ["junk"]]%string
           [("3", [("7", 40)])]%string "3" "7" 40).
  reflexivity.
Defined.

Lemma ambiguous_label_raises_witness :
  Anydice.load_anydice Anydice.ascii_contains_v Anydice.ascii_split_v
    Iai.ascii_int
    [["3 v 7"; "12"]; ["1 v 2 v 3"; "50"]; ["4 v 4"; "9"]]%string
  = inl Anydice.ValueError.
Proof.
  apply (ambiguous_label_raises Z Anydice.ascii_contains_v
           Anydice.ascii_split_v Iai.ascii_int
           [["3 v 7"; "12"]]%string [["4 v 4"; "9"]]%string
           "1 v 2 v 3"%string "50"%string []
           [("3", [("7", 12)])]%string).
  - reflexivity.
  - reflexivity.
  - simpl. discriminate.
Defined.
